(** * Booking feasibility and extension engines
    (src/source/controllers/bookings.ts)

    Shallow embedding of the booking controller.  JavaScript numbers are
    modelled as NaN, the two infinities, or a finite value given exactly as
    a rational; [+] on numbers rounds the exact sum to the nearest binary64
    double (ties to even, overflow to an infinity), as IEEE 754 does.  A
    JavaScript [Date] at whole-day granularity is a day number counted from
    1970-01-01, or the invalid date; calendar fields are those of UTC (the
    server runs in UTC, or in a zone without daylight-saving shifts).  The
    Prisma client is the persistence collaborator; it is threaded through a
    small state monad that also records every access the controller
    makes. *)

From Stdlib Require Import ZArith QArith Qabs String List Bool Lia.
Import ListNotations.

Open Scope Z_scope.

(** ** JavaScript numbers *)

Inductive jsnum : Type :=
| JNaN
| JPosInf
| JNegInf
| JNum (q : Q).

(** [2^e] as a rational, for any integer [e]. *)
Definition pow2Q (e : Z) : Q :=
  if 0 <=? e then inject_Z (2 ^ e) else 1 # Z.to_pos (2 ^ (- e)).

(** [floor(log2(a/d))] for [a > 0]. *)
Definition log2Q (a : Z) (d : positive) : Z :=
  let e0 := Z.log2 a - Z.log2 (Zpos d) in
  if Qle_bool (pow2Q e0) (a # d) then e0 else e0 - 1.

(** Exponent of the unit in the last place of a double of magnitude [a/d]:
    53-bit significands, subnormals down to [2^-1074]. *)
Definition ulp_exp (a : Z) (d : positive) : Z := Z.max (log2Q a d - 52) (-1074).

(** Significand of [a/d] rounded to a multiple of [2^ulp_exp], ties to
    even. *)
Definition round_sig (a : Z) (d : positive) : Z :=
  let ex := ulp_exp a d in
  let num := if 0 <=? ex then a else a * 2 ^ (- ex) in
  let den := if 0 <=? ex then Zpos d * 2 ^ ex else Zpos d in
  let m := num / den in
  let r := num mod den in
  if 2 * r <? den then m
  else if den <? 2 * r then m + 1
  else if Z.even m then m else m + 1.

(** The double nearest to [x] (roundTiesToEven); magnitudes that round to
    [2^1024] or beyond overflow to an infinity. *)
Definition round_double (x : Q) : jsnum :=
  let q := Qred x in
  let a := Z.abs (Qnum q) in
  if a =? 0 then JNum q else
  let v := (inject_Z (round_sig a (Qden q)) * pow2Q (ulp_exp a (Qden q)))%Q in
  if Qle_bool (pow2Q 1024) v then (if 0 <? Qnum q then JPosInf else JNegInf)
  else if Qeq_bool v (a # Qden q) then JNum q
  else JNum (Qred (if 0 <? Qnum q then v else - v)).

(** [x + y] on numbers. *)
Definition js_add (x y : jsnum) : jsnum :=
  match x, y with
  | JNaN, _ | _, JNaN => JNaN
  | JPosInf, JNegInf | JNegInf, JPosInf => JNaN
  | JPosInf, _ | _, JPosInf => JPosInf
  | JNegInf, _ | _, JNegInf => JNegInf
  | JNum a, JNum b => round_double (a + b)%Q
  end.

(** ToBoolean: [NaN] and [0] are falsy. *)
Definition js_truthy (x : jsnum) : bool :=
  match x with
  | JNaN => false
  | JNum q => negb (Qeq_bool q 0)
  | _ => true
  end.

(** [x <= 0]; a comparison with NaN is false. *)
Definition js_le_zero (x : jsnum) : bool :=
  match x with
  | JNaN | JPosInf => false
  | JNegInf => true
  | JNum q => Qle_bool q 0
  end.

(** ToIntegerOrInfinity on a finite number: truncation toward zero. *)
Definition Qtrunc (q : Q) : Z := Z.quot (Qnum q) (Zpos (Qden q)).

(** ** JavaScript dates at day granularity *)

(** [Some d] is midnight of day [d] after 1970-01-01; [None] is the
    invalid date (time value NaN). *)
Definition date := option Z.

(** TimeClip: time values beyond 8.64e15 ms, that is 10^8 days, are NaN. *)
Definition maxDay : Z := 100000000.

Definition TimeClip (d : Z) : date :=
  if Z.abs d <=? maxDay then Some d else None.

(** Day of the month of day [z] (proleptic Gregorian calendar). *)
Definition dayOfMonth (z : Z) : Z :=
  let z' := z + 719468 in
  let era := z' / 146097 in
  let doe := z' - era * 146097 in
  let yoe := (doe - doe / 1460 + doe / 36524 - doe / 146096) / 365 in
  let doy := doe - (365 * yoe + yoe / 4 - yoe / 100) in
  let mp := (5 * doy + 2) / 153 in
  doy - (153 * mp + 2) / 5 + 1.

(** [d.getDate()]: NaN on the invalid date. *)
Definition getDate (d : date) : jsnum :=
  match d with
  | Some t => JNum (inject_Z (dayOfMonth t))
  | None => JNaN
  end.

(** [d.setDate(v)] (a copy of [d] is updated): the day becomes the first of
    the month plus [ToIntegerOrInfinity(v) - 1]; the result is NaN when [d]
    is invalid or [v] is not finite. *)
Definition setDate (d : date) (v : jsnum) : date :=
  match d, v with
  | Some t, JNum q => TimeClip (t - dayOfMonth t + Qtrunc q)
  | _, _ => None
  end.

(** [addNights] (lines 101-105). *)
Definition addNights (d : date) (nights : jsnum) : date :=
  setDate d (js_add (getDate d) nights).

(** [a < b] on dates compares time values; NaN compares false. *)
Definition date_lt (a b : date) : bool :=
  match a, b with
  | Some x, Some y => x <? y
  | _, _ => false
  end.

(** Prisma's [equals] filter on a date column. *)
Definition date_eq (a b : date) : bool :=
  match a, b with
  | Some x, Some y => x =? y
  | _, _ => false
  end.

(** ** Data model *)

(** [interface Booking] (lines 4-9): the request body of a new booking.
    [checkInDate] is the value of [new Date(booking.checkInDate)]. *)
Record Booking : Type := mkBooking {
  guestName : string;
  unitID : string;
  checkInDate : date;
  numberOfNights : jsnum
}.

(** A persisted booking: the Prisma row, an [id] and the booking's fields. *)
Record BookingRow : Type := mkRow {
  id : Z;
  bk : Booking
}.

Definition rowGuest (b : BookingRow) : string := guestName (bk b).
Definition rowUnit (b : BookingRow) : string := unitID (bk b).
Definition rowCheckIn (b : BookingRow) : date := checkInDate (bk b).
Definition rowNights (b : BookingRow) : jsnum := numberOfNights (bk b).

(** Reason codes: the response messages of the controller. *)
Inductive reason : Type :=
| GUEST_UNIT_DUPLICATE   (* "The given guest name cannot book the same unit multiple times" *)
| GUEST_ALREADY_BOOKED   (* "The same guest cannot be in multiple units at the same time" *)
| UNIT_OCCUPIED          (* "For the given check-in date, the unit is already occupied" *)
| OK                     (* "OK" *)
| INVALID_EXTRA_NIGHTS   (* 400 "Extra nights should be a valid number" *)
| BOOKING_NOT_FOUND      (* 404 "Booking not found" *)
| EXTENSION_CONFLICT.    (* 409 "Extension not possible; unit is taken in that period" *)

(** [type BookingOutcome] (line 107). *)
Record BookingOutcome : Type := mkOutcome {
  result : bool;
  why : reason
}.

(** What a handler answers: the record it returns with status 200, or the
    rejection it reports. *)
Inductive Outcome : Type :=
| Accepted (b : BookingRow)
| Rejected (r : reason).

(** ** The persistence collaborator *)

(** Accesses to the store, in the order the controller makes them. *)
Inductive access : Type :=
| AFindMany
| AFindUnique (i : Z)
| ACreate (b : BookingRow)
| AUpdate (i : Z) (n : jsnum).

Record World : Type := mkWorld {
  store : list BookingRow;
  log : list access
}.

Definition M (A : Type) : Type := World -> A * World.

Definition ret {A : Type} (a : A) : M A := fun w => (a, w).

Definition bind {A B : Type} (m : M A) (k : A -> M B) : M B :=
  fun w => let (a, w') := m w in k a w'.

Notation "'let*' x := m 'in' k" := (bind m (fun x => k))
  (at level 200, x name, m at level 100, k at level 200).

Definition record_access (a : access) (w : World) : World :=
  mkWorld (store w) (log w ++ [a]).

(** Modelled from the spec: the Prisma client and its schema are not under
    src/.  [findMany] returns the rows satisfying the [where] filter (the
    spec's finders: by guest and unit, by guest, by unit before a date). *)
Definition findMany (p : BookingRow -> bool) : M (list BookingRow) :=
  fun w => (filter p (store w), record_access AFindMany w).

(** Modelled from the spec: [findBookingById], the row with that [id]. *)
Definition findUnique (i : Z) : M (option BookingRow) :=
  fun w => (find (fun b => id b =? i) (store w), record_access (AFindUnique i) w).

Definition max_id (s : list BookingRow) : Z :=
  fold_right (fun b m => Z.max (id b) m) 0 s.

(** Modelled from the spec: [createBooking(data)] stores the record under an
    [id] the collaborator assigns, unique among the stored rows.  The model
    picks one more than the largest id in use; the controller never reads
    the value, and the properties below use only that it is fresh. *)
Definition create (data : Booking) : M BookingRow :=
  fun w =>
    let r := mkRow (max_id (store w) + 1) data in
    (r, mkWorld (store w ++ [r]) (log w ++ [ACreate r])).

Definition set_nights (b : BookingRow) (n : jsnum) : BookingRow :=
  mkRow (id b)
    (mkBooking (rowGuest b) (rowUnit b) (rowCheckIn b) n).

(** Modelled from the spec: [updateBookingNights(id, n)] sets the
    [numberOfNights] column of the row with that [id] and returns it. *)
Definition update (b : BookingRow) (n : jsnum) : M BookingRow :=
  fun w =>
    (set_nights b n,
     mkWorld (map (fun x => if id x =? id b then set_nights x n else x) (store w))
             (log w ++ [AUpdate (id b) n])).

(** ** The controller *)

Definition nonempty {A : Type} (l : list A) : bool := Nat.ltb 0 (length l).

(** [isBookingPossible] (lines 109-179). *)
Definition isBookingPossible (booking : Booking) : M BookingOutcome :=
  (* check 1 *)
  let* sameGuestSameUnit :=
    findMany (fun b => String.eqb (rowGuest b) (guestName booking)
                       && String.eqb (rowUnit b) (unitID booking)) in
  if nonempty sameGuestSameUnit then ret (mkOutcome false GUEST_UNIT_DUPLICATE) else
  (* check 2 *)
  let* sameGuestAlreadyBooked :=
    findMany (fun b => String.eqb (rowGuest b) (guestName booking)) in
  if nonempty sameGuestAlreadyBooked then ret (mkOutcome false GUEST_ALREADY_BOOKED) else
  (* check 3 *)
  let* isUnitAvailableOnCheckInDate :=
    findMany (fun b => date_eq (rowCheckIn b) (checkInDate booking)
                       && String.eqb (rowUnit b) (unitID booking)) in
  if nonempty isUnitAvailableOnCheckInDate then ret (mkOutcome false UNIT_OCCUPIED) else
  (* check 4 *)
  let newCheckIn := checkInDate booking in
  let newCheckOut := addNights newCheckIn (numberOfNights booking) in
  let* unitCandidates :=
    findMany (fun b => String.eqb (rowUnit b) (unitID booking)
                       && date_lt (rowCheckIn b) newCheckOut) in
  if existsb (fun b =>
                let bCheckIn := rowCheckIn b in
                let bCheckOut := addNights bCheckIn (rowNights b) in
                date_lt newCheckIn bCheckOut && date_lt bCheckIn newCheckOut)
             unitCandidates
  then ret (mkOutcome false UNIT_OCCUPIED)
  else ret (mkOutcome true OK).

(** [createBooking] (lines 15-37). *)
Definition createBooking (booking : Booking) : M Outcome :=
  let* outcome := isBookingPossible booking in
  if negb (result outcome) then ret (Rejected (why outcome)) else
  let* bookingResult := create booking in
  ret (Accepted bookingResult).

(** [extendBooking] (lines 39-99).  [bookingId] is [parseInt(req.params.id)]
    and [extraNights] is [Number(req.body.extraNights)]. *)
Definition extendBooking (bookingId : Z) (extraNights : jsnum) : M Outcome :=
  if negb (js_truthy extraNights) || js_le_zero extraNights
  then ret (Rejected INVALID_EXTRA_NIGHTS) else
  let* found := findUnique bookingId in
  match found with
  | None => ret (Rejected BOOKING_NOT_FOUND)
  | Some booking =>
      let checkIn := rowCheckIn booking in
      let currentCheckout := setDate checkIn (js_add (getDate checkIn) (rowNights booking)) in
      let proposedCheckout :=
        setDate currentCheckout (js_add (getDate currentCheckout) extraNights) in
      let* conflictingBookings :=
        findMany (fun b => String.eqb (rowUnit b) (rowUnit booking)
                           && negb (id b =? id booking)
                           && date_lt (rowCheckIn b) proposedCheckout) in
      if existsb (fun other =>
                    let otherCheckIn := rowCheckIn other in
                    let otherCheckOut :=
                      setDate otherCheckIn (js_add (getDate otherCheckIn) (rowNights other)) in
                    date_lt currentCheckout otherCheckOut && date_lt otherCheckIn proposedCheckout)
                 conflictingBookings
      then ret (Rejected EXTENSION_CONFLICT)
      else
        let* updatedBooking := update booking (js_add (rowNights booking) extraNights) in
        ret (Accepted updatedBooking)
  end.

(** ** The interval model of the spec *)

Definition checkOut (b : BookingRow) : date := addNights (rowCheckIn b) (rowNights b).

(** [overlaps(a, b) = a.checkIn < checkOut(b) AND b.checkIn < checkOut(a)]. *)
Definition overlaps (a b : BookingRow) : bool :=
  date_lt (rowCheckIn a) (checkOut b) && date_lt (rowCheckIn b) (checkOut a).

(** No two distinct bookings on the same unit overlap. *)
Definition no_overlap (s : list BookingRow) : Prop :=
  forall a b, In a s -> In b s -> id a <> id b -> rowUnit a = rowUnit b ->
    overlaps a b = false.

Definition no_overlapb (s : list BookingRow) : bool :=
  forallb (fun a => forallb (fun b =>
    (id a =? id b) || negb (String.eqb (rowUnit a) (rowUnit b)) || negb (overlaps a b)) s) s.

Definition world0 (s : list BookingRow) : World := mkWorld s [].

Definition row (i : Z) (g u : string) (d : Z) (n : Q) : BookingRow :=
  mkRow i (mkBooking g u (Some d) (JNum n)).

(** 2024-10-04. *)
Definition today : Z := 20000.

(** ** The new-booking checks as the spec words them *)

(** Spec §4.2: checks 1 to 4 in order, the first one that fails gives the
    reason; [None] is acceptance. *)
Definition evaluateNewBooking_spec (c : Booking) (s : list BookingRow) : option reason :=
  let cand := mkRow 0 c in
  if existsb (fun b => String.eqb (rowGuest b) (guestName c)
                       && String.eqb (rowUnit b) (unitID c)) s
  then Some GUEST_UNIT_DUPLICATE
  else if existsb (fun b => String.eqb (rowGuest b) (guestName c)) s
  then Some GUEST_ALREADY_BOOKED
  else if existsb (fun b => String.eqb (rowUnit b) (unitID c)
                            && date_eq (rowCheckIn b) (checkInDate c)) s
  then Some UNIT_OCCUPIED
  else if existsb (fun b => String.eqb (rowUnit b) (unitID c)
                            && date_lt (rowCheckIn b) (checkOut cand)
                            && overlaps cand b) s
  then Some UNIT_OCCUPIED
  else None.

(** [isBookingPossible] with check 3 (exact check-in collision) removed:
    the variant the spec calls equivalent. *)
Definition isBookingPossible_no3 (booking : Booking) : M BookingOutcome :=
  let* sameGuestSameUnit :=
    findMany (fun b => String.eqb (rowGuest b) (guestName booking)
                       && String.eqb (rowUnit b) (unitID booking)) in
  if nonempty sameGuestSameUnit then ret (mkOutcome false GUEST_UNIT_DUPLICATE) else
  let* sameGuestAlreadyBooked :=
    findMany (fun b => String.eqb (rowGuest b) (guestName booking)) in
  if nonempty sameGuestAlreadyBooked then ret (mkOutcome false GUEST_ALREADY_BOOKED) else
  let newCheckIn := checkInDate booking in
  let newCheckOut := addNights newCheckIn (numberOfNights booking) in
  let* unitCandidates :=
    findMany (fun b => String.eqb (rowUnit b) (unitID booking)
                       && date_lt (rowCheckIn b) newCheckOut) in
  if existsb (fun b =>
                let bCheckIn := rowCheckIn b in
                let bCheckOut := addNights bCheckIn (rowNights b) in
                date_lt newCheckIn bCheckOut && date_lt bCheckIn newCheckOut)
             unitCandidates
  then ret (mkOutcome false UNIT_OCCUPIED)
  else ret (mkOutcome true OK).

(** [Number.isInteger]. *)
Definition js_is_integer (x : jsnum) : bool :=
  match x with
  | JNum q => Qnum q mod Zpos (Qden q) =? 0
  | _ => false
  end.

(** [extraNights] fails the validation of line 44. *)
Definition invalid_extra (x : jsnum) : bool :=
  negb (js_truthy x) || js_le_zero x.

(** A stored booking as the database holds it: a genuine date and a whole,
    positive number of nights. *)
Definition wf_row (b : BookingRow) : Prop :=
  exists t k, rowCheckIn b = Some t /\ Z.abs t <= maxDay
              /\ rowNights b = JNum (inject_Z k) /\ 1 <= k.

Definition wf_store (s : list BookingRow) : Prop :=
  NoDup (map id s) /\ forall b, In b s -> wf_row b.

Definition scenario_blocked : World :=
  world0 [row 1 "GuestA" "1" today 5; row 2 "GuestC" "1" (today + 5) 2].

Definition store_touching : list BookingRow :=
  [row 1 "GuestA" "1" today 5; row 2 "GuestC" "1" (today + 5) 0].

(** 2024-10-30 for 2 nights and 2024-11-01 for 2 nights, on unit 1. *)
Definition store_rounding : list BookingRow :=
  [row 1 "GuestA" "1" (today + 26) 2; row 2 "GuestC" "1" (today + 28) 2].

(** [Number("0.9999999999999998")], the double [1 - 2^-52]. *)
Definition extra_rounding : jsnum := JNum (4503599627370495 # 4503599627370496).

Definition store_zero_night : list BookingRow := [row 1 "GuestA" "1" today 0].

Definition candidate_after_zero : Booking := mkBooking "GuestB" "1" (Some today) (JNum 3).

Definition store_one_night : list BookingRow := [row 1 "GuestA" "1" today 5].

Definition candidate_back_to_back : Booking := mkBooking "GuestB" "1" (Some (today + 5)) (JNum 2).

Definition store_last_day : list BookingRow := [row 1 "GuestA" "1" maxDay 1].

Definition candidate_last_day : Booking := mkBooking "GuestB" "1" (Some maxDay) (JNum 1).

(** ** Requests served one after another *)

(** A request to one of the two handlers. *)
Inductive request : Type :=
| ReqCreate (c : Booking)
| ReqExtend (bookingId : Z) (extraNights : jsnum).

Definition handle (r : request) : M Outcome :=
  match r with
  | ReqCreate c => createBooking c
  | ReqExtend i e => extendBooking i e
  end.

(** The requests handled in order, each on the store the previous one
    left. *)
Fixpoint serve (rs : list request) : M (list Outcome) :=
  match rs with
  | [] => ret []
  | r :: rs' =>
      let* o := handle r in
      let* os := serve rs' in
      ret (o :: os)
  end.

(** No two stored bookings share an id. *)
Definition ids_distinct (s : list BookingRow) : Prop := NoDup (map id s).

(** No guest holds two stored bookings. *)
Definition guests_unique (s : list BookingRow) : Prop := NoDup (map rowGuest s).

(** ** Lemmas on the number and date layer *)

Lemma dayOfMonth_pos (z : Z) : 1 <= dayOfMonth z.
Proof.
  unfold dayOfMonth.
  set (z' := z + 719468).
  set (era := z' / 146097).
  set (doe := z' - era * 146097).
  assert (Hdoe : 0 <= doe < 146097) by (subst doe era; pose proof (Z.mod_pos_bound z' 146097); rewrite Z.mod_eq in H by lia; lia).
  clearbody doe.
  set (yoe := (doe - doe / 1460 + doe / 36524 - doe / 146096) / 365).
  set (doy := doe - (365 * yoe + yoe / 4 - yoe / 100)).
  assert (Hdoy : 0 <= doy) by (subst doy yoe; Z.div_mod_to_equations; lia).
  clearbody doy.
  set (mp := (5 * doy + 2) / 153).
  assert (Hmp : 153 * mp <= 5 * doy + 2) by (subst mp; Z.div_mod_to_equations; lia).
  clearbody mp.
  assert ((153 * mp + 2) / 5 <= doy) by (Z.div_mod_to_equations; lia).
  lia.
Qed.

Lemma Qtrunc_nonneg (q : Q) : (0 <= q)%Q -> 0 <= Qtrunc q.
Proof.
  destruct q as [n d]; unfold Qle, Qtrunc; simpl; intros H.
  apply Z.quot_pos; lia.
Qed.

Lemma Qtrunc_ge_1 (q : Q) : (1 <= q)%Q -> 1 <= Qtrunc q.
Proof.
  destruct q as [n d]; unfold Qle, Qtrunc; simpl; intros H.
  rewrite Z.quot_div_nonneg by lia.
  apply Z.div_le_lower_bound; lia.
Qed.

Lemma Qtrunc_add_Z (g : Z) (q : Q) :
  0 <= g -> (0 <= q)%Q -> Qtrunc (inject_Z g + q) = g + Qtrunc q.
Proof.
  destruct q as [n d]; unfold Qle, Qtrunc, Qplus, inject_Z; simpl; intros Hg H.
  rewrite !Z.quot_div_nonneg by nia.
  rewrite Z.mul_1_r.
  rewrite Z.add_comm, Z.div_add by lia. lia.
Qed.

Lemma two52 : 2 ^ 52 = 4503599627370496.
Proof. reflexivity. Qed.

Lemma two53 : 2 ^ 53 = 9007199254740992.
Proof. reflexivity. Qed.

Lemma dayOfMonth_le (z : Z) : dayOfMonth z <= 31.
Proof.
  unfold dayOfMonth.
  set (z' := z + 719468).
  set (era := z' / 146097).
  set (doe := z' - era * 146097).
  set (yoe := (doe - doe / 1460 + doe / 36524 - doe / 146096) / 365).
  set (doy := doe - (365 * yoe + yoe / 4 - yoe / 100)).
  clearbody doy.
  set (mp := (5 * doy + 2) / 153).
  assert (Hmp : 5 * doy + 2 < 153 * mp + 153) by (subst mp; Z.div_mod_to_equations; lia).
  clearbody mp.
  assert (doy - 31 < (153 * mp + 2) / 5) by (Z.div_mod_to_equations; lia).
  lia.
Qed.

Lemma Qtrunc_compat (x y : Q) : (x == y)%Q -> Qtrunc x = Qtrunc y.
Proof.
  destruct x as [n1 d1], y as [n2 d2]; unfold Qeq, Qtrunc; simpl; intros H.
  rewrite <- (Z.quot_mul_cancel_r n1 (Zpos d1) (Zpos d2)) by lia.
  rewrite <- (Z.quot_mul_cancel_r n2 (Zpos d2) (Zpos d1)) by lia.
  rewrite H, (Z.mul_comm (Zpos d1)); reflexivity.
Qed.

Lemma Qtrunc_ge_Z (y : Q) (K : Z) : 0 <= K -> (inject_Z K <= y)%Q -> K <= Qtrunc y.
Proof.
  destruct y as [n d]; unfold Qle, Qtrunc; simpl; intros HK H.
  rewrite Z.quot_div_nonneg by nia.
  apply Z.div_le_lower_bound; lia.
Qed.

Lemma Qtrunc_abs_ge (y : Q) (K : Z) :
  0 <= K -> (inject_Z K <= Qabs y)%Q -> K <= Z.abs (Qtrunc y).
Proof.
  destruct y as [n d]; unfold Qle, Qtrunc; simpl; intros HK H.
  rewrite <- Z.quot_abs by lia; simpl Z.abs at 2.
  rewrite Z.quot_div_nonneg by lia.
  apply Z.div_le_lower_bound; lia.
Qed.

Lemma Qred_inject_Z (z : Z) : Qred (inject_Z z) = inject_Z z.
Proof.
  unfold Qred, inject_Z.
  pose proof (Z.ggcd_gcd z 1) as Hg; pose proof (Z.ggcd_correct_divisors z 1) as Hd.
  destruct (Z.ggcd z 1) as [g [aa bb]]; simpl in Hg, Hd.
  rewrite Z.gcd_1_r in Hg; subst g; destruct Hd as [Ha Hb].
  replace aa with z by lia; replace bb with 1 by lia; reflexivity.
Qed.

Lemma pow2Q_nonneg (e : Z) : 0 <= e -> pow2Q e = inject_Z (2 ^ e).
Proof. intros He; unfold pow2Q; apply Z.leb_le in He; rewrite He; reflexivity. Qed.

Lemma pow2Q_neg (e : Z) : e < 0 -> pow2Q e = 1 # Z.to_pos (2 ^ (- e)).
Proof.
  intros He; unfold pow2Q.
  replace (0 <=? e) with false by (symmetry; apply Z.leb_gt; lia); reflexivity.
Qed.

Lemma pos_pow2 (e : Z) : 0 <= e -> Zpos (Z.to_pos (2 ^ e)) = 2 ^ e.
Proof. intros He; apply Z2Pos.id, Z.pow_pos_nonneg; lia. Qed.

Lemma log2Q_le (a : Z) (d : positive) : log2Q a d <= Z.log2 a - Z.log2 (Zpos d).
Proof. unfold log2Q; destruct (Qle_bool _ _); lia. Qed.

Lemma log2Q_lower (a : Z) (d : positive) :
  0 < a -> 0 <= log2Q a d -> 2 ^ log2Q a d * Zpos d <= a.
Proof.
  intros Ha; unfold log2Q.
  set (e0 := Z.log2 a - Z.log2 (Zpos d)).
  destruct (Qle_bool (pow2Q e0) (a # d)) eqn:E; intros He.
  - apply Qle_bool_iff in E; rewrite pow2Q_nonneg in E by exact He.
    unfold Qle in E; simpl in E; lia.
  - destruct (Z.log2_spec a Ha) as [Ha1 _].
    destruct (Z.log2_spec (Zpos d) eq_refl) as [_ Hd2].
    pose proof (Z.log2_nonneg (Zpos d)).
    assert (Hp : 2 ^ Z.log2 a = 2 ^ (e0 - 1) * 2 ^ (Z.log2 (Zpos d) + 1))
      by (rewrite <- Z.pow_add_r by lia; f_equal; unfold e0; lia).
    assert (0 < 2 ^ (e0 - 1)) by (apply Z.pow_pos_nonneg; lia).
    nia.
Qed.

Lemma round_sig_floor (a : Z) (d : positive) :
  let ex := ulp_exp a d in
  let num := if 0 <=? ex then a else a * 2 ^ (- ex) in
  let den := if 0 <=? ex then Zpos d * 2 ^ ex else Zpos d in
  num / den <= round_sig a d.
Proof.
  intros ex num den; unfold round_sig; fold ex; fold num; fold den.
  destruct (_ <? _); [lia|]; destruct (_ <? _); [lia|]; destruct (Z.even _); lia.
Qed.

(** Rounding keeps a magnitude at or above any integer up to [2^53] that
    it exceeds. *)
Lemma round_mag_lower (a : Z) (d : positive) (K : Z) :
  0 < a -> 0 <= K <= 2 ^ 53 -> (inject_Z K <= a # d)%Q ->
  (inject_Z K <= inject_Z (round_sig a d) * pow2Q (ulp_exp a d))%Q.
Proof.
  intros Ha HK Hle; unfold Qle in Hle; simpl in Hle.
  pose proof (round_sig_floor a d) as Hs; cbv zeta in Hs.
  assert (Hex : ulp_exp a d = Z.max (log2Q a d - 52) (-1074)) by reflexivity.
  set (ex := ulp_exp a d) in *; set (sg := round_sig a d) in *.
  destruct (Z_lt_le_dec ex 0) as [Hneg|Hnn].
  - replace (0 <=? ex) with false in Hs by (symmetry; apply Z.leb_gt; lia).
    rewrite pow2Q_neg by exact Hneg.
    unfold Qle; simpl; rewrite pos_pow2 by lia.
    assert (0 < 2 ^ (- ex)) by (apply Z.pow_pos_nonneg; lia).
    assert (K * 2 ^ (- ex) <= a * 2 ^ (- ex) / Zpos d)
      by (apply Z.div_le_lower_bound; [lia|nia]).
    lia.
  - destruct (Z.eq_dec ex 0) as [H0|Hpos].
    + rewrite H0 in Hs |- *; simpl in Hs; rewrite ?Pos.mul_1_r, ?Z.mul_1_r in Hs.
      rewrite pow2Q_nonneg by lia; unfold Qle; simpl.
      assert (K <= a / Zpos d) by (apply Z.div_le_lower_bound; lia).
      lia.
    + assert (HE : ex = log2Q a d - 52) by lia.
      set (E := log2Q a d) in *.
      assert (Hlow : 2 ^ E * Zpos d <= a) by (apply log2Q_lower; lia).
      replace (0 <=? ex) with true in Hs by (symmetry; apply Z.leb_le; lia).
      rewrite pow2Q_nonneg by lia; unfold Qle; simpl.
      assert (HE2 : 2 ^ E = 2 ^ 52 * 2 ^ ex) by (rewrite <- Z.pow_add_r by lia; f_equal; lia).
      assert (Hp : 0 < 2 ^ ex) by (apply Z.pow_pos_nonneg; lia).
      assert (H52 : 2 ^ 52 <= a / (Zpos d * 2 ^ ex))
        by (apply Z.div_le_lower_bound; nia).
      assert (H53 : 2 ^ 53 <= 2 ^ E) by (apply Z.pow_le_mono_r; lia).
      nia.
Qed.

Lemma ulp_exp_small (a : Z) : 0 < a < 2 ^ 53 -> ulp_exp a 1 <= 0.
Proof.
  intros [Ha Hb]; unfold ulp_exp.
  pose proof (log2Q_le a 1) as H; simpl (Z.log2 (Zpos 1)) in H.
  assert (Z.log2 a < 53) by (apply Z.log2_lt_pow2; lia).
  lia.
Qed.

Lemma round_mag_int (a : Z) : 0 < a < 2 ^ 53 ->
  (inject_Z (round_sig a 1) * pow2Q (ulp_exp a 1) == inject_Z a)%Q.
Proof.
  intros Ha; pose proof (ulp_exp_small a Ha) as Hex.
  unfold round_sig; cbv zeta.
  set (ex := ulp_exp a 1) in *.
  destruct (Z.eq_dec ex 0) as [H0|Hneg].
  - rewrite H0; change (Zpos 1 * 2 ^ 0) with 1.
    rewrite Z.div_1_r, Z.mod_1_r; simpl.
    unfold Qeq; simpl; lia.
  - replace (0 <=? ex) with false by (symmetry; apply Z.leb_gt; lia).
    rewrite Z.div_1_r, Z.mod_1_r; simpl.
    rewrite pow2Q_neg by lia.
    unfold Qeq; simpl; rewrite pos_pow2 by lia; lia.
Qed.

(** An integer below [2^53] in magnitude is a double: [+] gives it
    exactly. *)
Lemma round_double_int (x : Q) (z : Z) :
  (x == inject_Z z)%Q -> Z.abs z < 2 ^ 53 -> round_double x = JNum (inject_Z z).
Proof.
  intros Hx Hz; unfold round_double.
  rewrite (Qred_complete x (inject_Z z) Hx), Qred_inject_Z; simpl Qnum; simpl Qden.
  destruct (Z.abs z =? 0) eqn:H0; [reflexivity|].
  apply Z.eqb_neq in H0.
  pose proof (round_mag_int (Z.abs z) ltac:(lia)) as Hv.
  replace (Qle_bool (pow2Q 1024) _) with false.
  2:{ symmetry; apply not_true_iff_false; intros Hle; apply Qle_bool_iff in Hle.
      rewrite Hv, pow2Q_nonneg in Hle by lia. rewrite <- Zle_Qle in Hle.
      assert (2 ^ 53 <= 2 ^ 1024) by (apply Z.pow_le_mono_r; lia). lia. }
  replace (Qeq_bool _ _) with true; [reflexivity|].
  symmetry; apply Qeq_bool_iff; rewrite Hv; reflexivity.
Qed.

(** Rounding to a double keeps the sign and keeps a magnitude at or above
    an integer up to [2^53] that the exact value reaches; or the value
    overflows to the infinity of its sign. *)
Lemma round_double_lower (x : Q) (K : Z) :
  0 <= K <= 2 ^ 53 -> (inject_Z K <= Qabs x)%Q ->
  (exists y, round_double x = JNum y /\ (inject_Z K <= Qabs y)%Q
             /\ ((0 <= x)%Q -> (0 <= y)%Q))
  \/ round_double x = (if Qle_bool 0 x then JPosInf else JNegInf).
Proof.
  intros HK Hx; unfold round_double.
  pose proof (Qred_correct x) as Hr.
  destruct (Qred x) as [n d]; simpl Qnum; simpl Qden.
  assert (Habs : (Qabs x == Z.abs n # d)%Q) by (rewrite <- Hr; reflexivity).
  rewrite Habs in Hx.
  assert (Hsign : (0 <= x)%Q <-> 0 <= n) by (rewrite <- Hr; unfold Qle; simpl; lia).
  destruct (Z.abs n =? 0) eqn:H0.
  - left; exists (n # d); split; [reflexivity|]; split; [exact Hx|].
    intros H; rewrite Hr; exact H.
  - apply Z.eqb_neq in H0.
    pose proof (round_mag_lower (Z.abs n) d K ltac:(lia) HK Hx) as Hv.
    set (v := (inject_Z (round_sig (Z.abs n) d) * pow2Q (ulp_exp (Z.abs n) d))%Q) in *.
    assert (Hv0 : (0 <= v)%Q) by (eapply Qle_trans; [|exact Hv]; unfold Qle; simpl; lia).
    destruct (Qle_bool (pow2Q 1024) v).
    + right; destruct (0 <? n) eqn:Hn.
      * replace (Qle_bool 0 x) with true; [reflexivity|].
        symmetry; apply Qle_bool_iff, Hsign; apply Z.ltb_lt in Hn; lia.
      * replace (Qle_bool 0 x) with false; [reflexivity|].
        symmetry; apply not_true_iff_false; intros Hle.
        apply Qle_bool_iff, Hsign in Hle; apply Z.ltb_ge in Hn; lia.
    + left; destruct (Qeq_bool v (Z.abs n # d)).
      * exists (n # d); split; [reflexivity|]; split; [exact Hx|].
        intros H; rewrite Hr; exact H.
      * eexists; split; [reflexivity|].
        destruct (0 <? n) eqn:Hn.
        -- rewrite Qred_correct, Qabs_pos by exact Hv0.
           split; [exact Hv|intros _; try rewrite Qred_correct; exact Hv0].
        -- rewrite Qred_correct, Qabs_opp, Qabs_pos by exact Hv0.
           split; [exact Hv|intros H; apply Hsign in H; apply Z.ltb_ge in Hn; lia].
Qed.

Lemma TimeClip_out (d : Z) : maxDay < Z.abs d -> TimeClip d = None.
Proof.
  intros H; unfold TimeClip; replace (Z.abs d <=? maxDay) with false; [reflexivity|].
  symmetry; apply Z.leb_gt; exact H.
Qed.

Lemma setDate_inf (d : date) (x : jsnum) :
  x = JPosInf \/ x = JNegInf -> setDate d x = None.
Proof. intros [-> | ->]; destruct d; reflexivity. Qed.

Lemma addNights_inf (d : date) : addNights d JPosInf = None.
Proof. destruct d; reflexivity. Qed.

(** With at least one night, a valid checkout lies after the check-in. *)
Lemma addNights_lower (t : Z) (q : Q) (o : Z) :
  (1 <= q)%Q -> addNights (Some t) (JNum q) = Some o -> t < o.
Proof.
  intros Hq; unfold addNights, getDate, js_add.
  pose proof (dayOfMonth_pos t); pose proof (dayOfMonth_le t).
  set (g := dayOfMonth t) in *.
  assert (Hpos : (0 <= inject_Z g + q)%Q).
  { destruct q as [n d]; unfold Qle, Qplus in *; simpl in *; nia. }
  assert (Hx : (inject_Z (g + 1) <= Qabs (inject_Z g + q))%Q).
  { rewrite Qabs_pos by exact Hpos; rewrite inject_Z_plus.
    apply Qplus_le_compat; [apply Qle_refl|exact Hq]. }
  destruct (round_double_lower (inject_Z g + q) (g + 1) ltac:(rewrite two53; lia) Hx)
    as [[y [Hy [Hyabs Hys]]]|Hinf].
  - rewrite Hy; unfold setDate, TimeClip.
    rewrite Qabs_pos in Hyabs by (apply Hys; exact Hpos).
    pose proof (Qtrunc_ge_Z y (g + 1) ltac:(lia) Hyabs).
    destruct (_ <=? maxDay); intros H'; [injection H' as <-; lia|discriminate].
  - rewrite Hinf, setDate_inf; [discriminate|].
    destruct (Qle_bool 0 _); auto.
Qed.

(** Adding a whole number of nights to a valid date moves it by exactly
    that many days; the result is invalid only out of the date range. *)
Lemma addNights_int (t z : Z) :
  Z.abs t <= maxDay -> addNights (Some t) (JNum (inject_Z z)) = TimeClip (t + z).
Proof.
  intros Ht; unfold addNights, getDate, js_add.
  pose proof (dayOfMonth_pos t); pose proof (dayOfMonth_le t).
  set (g := dayOfMonth t) in *.
  destruct (Z_lt_le_dec (Z.abs (g + z)) (2 ^ 53)) as [Hs|Hb].
  - rewrite (round_double_int _ (g + z)) by (rewrite ?inject_Z_plus; reflexivity || exact Hs).
    unfold setDate, Qtrunc; simpl; rewrite Z.quot_1_r; f_equal; lia.
  - rewrite two53 in Hb.
    rewrite (TimeClip_out (t + z)) by (unfold maxDay in *; lia).
    assert (Hx : (inject_Z (2 ^ 52) <= Qabs (inject_Z g + inject_Z z))%Q)
      by (rewrite <- inject_Z_plus; unfold Qle; simpl; rewrite ?two52; lia).
    destruct (round_double_lower _ (2 ^ 52) ltac:(rewrite two52, two53; lia) Hx)
      as [[y [Hy [Hyabs _]]]|Hinf].
    + rewrite Hy; unfold setDate.
      pose proof (Qtrunc_abs_ge y (2 ^ 52) ltac:(rewrite two52; lia) Hyabs).
      rewrite two52 in *; apply TimeClip_out; unfold maxDay in *; lia.
    + rewrite Hinf; apply setDate_inf; destruct (Qle_bool 0 _); auto.
Qed.

(** A night count of [2^53] or more in magnitude puts a valid date out of
    range. *)
Lemma addNights_huge (t : Z) (y : Q) :
  Z.abs t <= maxDay -> (inject_Z (2 ^ 53) <= Qabs y)%Q -> addNights (Some t) (JNum y) = None.
Proof.
  intros Ht Hy; unfold addNights, getDate, js_add.
  pose proof (dayOfMonth_pos t); pose proof (dayOfMonth_le t).
  set (g := dayOfMonth t) in *.
  assert (Htri : (Qabs y <= Qabs (inject_Z g + y) + inject_Z g)%Q).
  { setoid_replace y with ((inject_Z g + y) + - inject_Z g)%Q at 1 by ring.
    eapply Qle_trans; [apply Qabs_triangle|].
    apply Qplus_le_r; unfold Qle; simpl; lia. }
  assert (Hx : (inject_Z (2 ^ 52) <= Qabs (inject_Z g + y))%Q).
  { apply (Qplus_le_l _ _ (inject_Z g)).
    eapply Qle_trans; [|exact Htri]; eapply Qle_trans; [|exact Hy].
    rewrite <- inject_Z_plus, <- Zle_Qle, two52, two53; lia. }
  destruct (round_double_lower _ (2 ^ 52) ltac:(rewrite two52, two53; lia) Hx)
    as [[y' [Hy' [Hyabs _]]]|Hinf].
  - rewrite Hy'; unfold setDate.
    pose proof (Qtrunc_abs_ge y' (2 ^ 52) ltac:(rewrite two52; lia) Hyabs).
    rewrite two52 in *; apply TimeClip_out; unfold maxDay in *; lia.
  - rewrite Hinf; apply setDate_inf; destruct (Qle_bool 0 _); auto.
Qed.

(** A valid date moved by the double sum of two whole night counts. *)
Lemma addNights_sum_int (t k m : Z) :
  Z.abs t <= maxDay -> 0 <= k -> 0 <= m ->
  addNights (Some t) (js_add (JNum (inject_Z k)) (JNum (inject_Z m))) = TimeClip (t + (k + m)).
Proof.
  intros Ht Hk Hm.
  change (js_add (JNum (inject_Z k)) (JNum (inject_Z m)))
    with (round_double (inject_Z k + inject_Z m)).
  destruct (Z_lt_le_dec (k + m) (2 ^ 53)) as [Hs|Hb].
  - rewrite (round_double_int _ (k + m)) by (rewrite ?inject_Z_plus; reflexivity || lia).
    apply addNights_int, Ht.
  - rewrite (TimeClip_out (t + (k + m))) by (rewrite two53 in Hb; unfold maxDay in *; lia).
    assert (Hx : (inject_Z (2 ^ 53) <= Qabs (inject_Z k + inject_Z m))%Q)
      by (rewrite <- inject_Z_plus; unfold Qle; simpl; rewrite ?two53 in *; lia).
    destruct (round_double_lower _ (2 ^ 53) ltac:(rewrite two53; lia) Hx)
      as [[y [Hy [Hyabs _]]]|Hinf].
    + rewrite Hy; apply addNights_huge; assumption.
    + rewrite Hinf; replace (Qle_bool 0 _) with true; [apply addNights_inf|].
      symmetry; apply Qle_bool_iff; unfold Qle; simpl; lia.
Qed.

Example ex_extend_5_by_2 :
  fst (extendBooking 1 (JNum 2) (world0 [row 1 "GuestA" "1" today 5]))
  = Accepted (row 1 "GuestA" "1" today 7).
Proof. vm_compute. reflexivity. Qed.

Example ex_extend_conflict :
  fst (extendBooking 1 (JNum 1)
         (world0 [row 1 "GuestA" "1" today 5; row 2 "GuestC" "1" (today + 5) 2]))
  = Rejected EXTENSION_CONFLICT.
Proof. vm_compute. reflexivity. Qed.

(** ** General lemmas on the model *)

Lemma nonempty_filter {A : Type} (p : A -> bool) (l : list A) :
  nonempty (filter p l) = existsb p l.
Proof.
  unfold nonempty; induction l as [|x l IH]; simpl; [reflexivity|].
  destruct (p x); simpl; [reflexivity|exact IH].
Qed.

Lemma existsb_filter {A : Type} (p f : A -> bool) (l : list A) :
  existsb f (filter p l) = existsb (fun x => p x && f x) l.
Proof.
  induction l as [|x l IH]; simpl; [reflexivity|].
  destruct (p x); simpl; [rewrite IH; reflexivity|exact IH].
Qed.

Lemma existsb_ext {A : Type} (f g : A -> bool) (l : list A) :
  (forall x, f x = g x) -> existsb f l = existsb g l.
Proof.
  intros H; induction l as [|x l IH]; simpl; [reflexivity|].
  rewrite H, IH; reflexivity.
Qed.

Lemma overlaps_sym (a b : BookingRow) : overlaps a b = overlaps b a.
Proof. unfold overlaps; apply andb_comm. Qed.

Lemma no_overlapb_spec (s : list BookingRow) : no_overlapb s = true <-> no_overlap s.
Proof.
  unfold no_overlapb, no_overlap; rewrite forallb_forall; split.
  - intros H a b Ha Hb Hid Hu.
    specialize (H a Ha); rewrite forallb_forall in H; specialize (H b Hb).
    apply Z.eqb_neq in Hid; rewrite Hid, Hu, String.eqb_refl in H; simpl in H.
    destruct (overlaps a b); [discriminate|reflexivity].
  - intros H a Ha; apply forallb_forall; intros b Hb.
    destruct (Z.eqb_spec (id a) (id b)) as [|Hid]; [reflexivity|].
    destruct (String.eqb_spec (rowUnit a) (rowUnit b)) as [Hu|]; [|reflexivity].
    rewrite (H a b Ha Hb Hid Hu); reflexivity.
Qed.

(** The outcome of [createBooking] and its effect on the store. *)
Lemma createBooking_run (c : Booking) (w : World) :
  match evaluateNewBooking_spec c (store w) with
  | Some r => fst (createBooking c w) = Rejected r /\ store (snd (createBooking c w)) = store w
  | None =>
      fst (createBooking c w) = Accepted (mkRow (max_id (store w) + 1) c)
      /\ store (snd (createBooking c w)) = store w ++ [mkRow (max_id (store w) + 1) c]
  end.
Proof.
  destruct w as [s l].
  unfold createBooking, isBookingPossible, evaluateNewBooking_spec, bind, ret,
    findMany, record_access, create; simpl.
  rewrite nonempty_filter.
  destruct (existsb (fun b => String.eqb (rowGuest b) (guestName c)
                              && String.eqb (rowUnit b) (unitID c)) s);
    simpl; [auto|].
  rewrite nonempty_filter.
  destruct (existsb (fun b => String.eqb (rowGuest b) (guestName c)) s);
    simpl; [auto|].
  rewrite nonempty_filter.
  rewrite (existsb_ext (fun b => date_eq (rowCheckIn b) (checkInDate c)
                                 && String.eqb (rowUnit b) (unitID c))
                       (fun b => String.eqb (rowUnit b) (unitID c)
                                 && date_eq (rowCheckIn b) (checkInDate c)))
    by (intros x; apply andb_comm).
  destruct (existsb (fun b => String.eqb (rowUnit b) (unitID c)
                              && date_eq (rowCheckIn b) (checkInDate c)) s);
    simpl; [auto|].
  rewrite existsb_filter.
  destruct (existsb _ s); simpl; auto.
Qed.

(** The verdict of [createBooking]: the first failing check of
    [evaluateNewBooking_spec], or acceptance with a fresh row. *)
Lemma createBooking_fst (c : Booking) (w : World) :
  fst (createBooking c w)
  = match evaluateNewBooking_spec c (store w) with
    | Some r => Rejected r
    | None => Accepted (mkRow (max_id (store w) + 1) c)
    end.
Proof.
  pose proof (createBooking_run c w) as H.
  destruct (evaluateNewBooking_spec c (store w)); apply H.
Qed.

(** The outcome of [extendBooking] and its effect on the store. *)
Lemma extendBooking_run (i : Z) (e : jsnum) (w : World) :
  if invalid_extra e then extendBooking i e w = (Rejected INVALID_EXTRA_NIGHTS, w)
  else match find (fun b => id b =? i) (store w) with
  | None => fst (extendBooking i e w) = Rejected BOOKING_NOT_FOUND
            /\ store (snd (extendBooking i e w)) = store w
  | Some b =>
      let cur := checkOut b in
      let prop := addNights cur e in
      if existsb (fun o => String.eqb (rowUnit o) (rowUnit b)
                           && negb (id o =? id b)
                           && date_lt (rowCheckIn o) prop
                           && (date_lt cur (checkOut o) && date_lt (rowCheckIn o) prop))
                 (store w)
      then fst (extendBooking i e w) = Rejected EXTENSION_CONFLICT
           /\ store (snd (extendBooking i e w)) = store w
      else fst (extendBooking i e w) = Accepted (set_nights b (js_add (rowNights b) e))
           /\ store (snd (extendBooking i e w))
              = map (fun x => if id x =? id b then set_nights x (js_add (rowNights b) e) else x)
                    (store w)
  end.
Proof.
  unfold invalid_extra, extendBooking.
  destruct (negb (js_truthy e) || js_le_zero e); [reflexivity|].
  destruct w as [s l].
  unfold bind, ret, findUnique, findMany, record_access, update; simpl.
  destruct (find (fun b => id b =? i) s) as [b|]; simpl; [|auto].
  rewrite existsb_filter.
  destruct (existsb _ s); simpl; auto.
Qed.

Lemma invalid_extra_spec (x : jsnum) :
  invalid_extra x = true <->
  x = JNaN \/ x = JNegInf \/ exists q, x = JNum q /\ (q <= 0)%Q.
Proof.
  unfold invalid_extra; destruct x as [| | |q]; simpl; split; intros H.
  - auto.
  - reflexivity.
  - discriminate.
  - destruct H as [H|[H|[q [H _]]]]; discriminate.
  - auto.
  - reflexivity.
  - apply orb_true_iff in H; destruct H as [H|H].
    + apply negb_true_iff, negb_false_iff, Qeq_bool_iff in H.
      right; right; exists q; split; [reflexivity|rewrite H; apply Qle_refl].
    + apply Qle_bool_iff in H; right; right; exists q; auto.
  - destruct H as [H|[H|[q' [H Hq]]]]; try discriminate.
    injection H as <-; apply orb_true_iff; right; apply Qle_bool_iff; exact Hq.
Qed.

Lemma find_in {A : Type} (f : A -> bool) (l : list A) (x : A) :
  find f l = Some x -> In x l /\ f x = true.
Proof.
  induction l as [|y l IH]; simpl; [discriminate|].
  destruct (f y) eqn:Ey; [intros H; injection H as <-; auto|].
  intros H; destruct (IH H); auto.
Qed.

Lemma NoDup_map_id (s : list BookingRow) (a b : BookingRow) :
  NoDup (map id s) -> In a s -> In b s -> id a = id b -> a = b.
Proof.
  induction s as [|x s IH]; simpl; [tauto|].
  intros Hnd; inversion Hnd as [|? ? Hx Hnd']; subst.
  intros [->|Ha] [->|Hb] Hid; auto.
  - exfalso; apply Hx; rewrite Hid; apply in_map; exact Hb.
  - exfalso; apply Hx; rewrite <- Hid; apply in_map; exact Ha.
Qed.

(** ** Lemmas for the interval claims *)

Lemma date_lt_irrefl (d : date) : date_lt d d = false.
Proof. destruct d; simpl; [apply Z.ltb_irrefl|reflexivity]. Qed.

(** With at least one night, a valid checkout lies after the check-in. *)
Lemma addNights_after (d : date) (q : Q) (o : Z) :
  (1 <= q)%Q -> addNights d (JNum q) = Some o -> exists t, d = Some t /\ t < o.
Proof.
  intros Hq; destruct d as [t|]; [|discriminate].
  intros H; exists t; split; [reflexivity|exact (addNights_lower t q o Hq H)].
Qed.

Lemma wf_row_after (b : BookingRow) (o : Z) :
  wf_row b -> checkOut b = Some o -> date_lt (rowCheckIn b) (Some o) = true.
Proof.
  intros (t & k & Ht & _ & Hn & Hk) Ho; unfold checkOut in Ho; rewrite Hn in Ho.
  apply addNights_after in Ho; [|unfold Qle; simpl; lia].
  destruct Ho as [t' [Ht' Hlt]]; rewrite Ht'; simpl; apply Z.ltb_lt; exact Hlt.
Qed.

(** The checkout of the extended booking, computed from its new night count,
    is the proposed checkout the controller checked, for a whole number of
    extra nights. *)
Lemma extended_checkout (b : BookingRow) (m : Z) :
  wf_row b -> 1 <= m ->
  checkOut (set_nights b (js_add (rowNights b) (JNum (inject_Z m))))
  = addNights (checkOut b) (JNum (inject_Z m)).
Proof.
  intros (t & k & Ht & Hrange & Hn & Hk) Hm.
  unfold checkOut, set_nights, rowCheckIn, rowNights in *; simpl.
  rewrite Ht, Hn, addNights_sum_int, addNights_int by lia.
  unfold TimeClip at 2; destruct (Z.abs (t + k) <=? maxDay) eqn:Hr.
  - rewrite addNights_int by (apply Z.leb_le; exact Hr); f_equal; lia.
  - apply Z.leb_gt in Hr; apply TimeClip_out; unfold maxDay in *; lia.
Qed.

(** A whole [extraNights] that passes validation is at least 1. *)
Lemma whole_valid (m : Z) : invalid_extra (JNum (inject_Z m)) = false -> 1 <= m.
Proof.
  unfold invalid_extra; simpl; intros H; apply orb_false_iff in H; destruct H as [_ H].
  destruct (Z_lt_le_dec 0 m) as [|Hle]; [lia|].
  rewrite (proj2 (Qle_bool_iff _ _)) in H; [discriminate|].
  unfold Qle; simpl; lia.
Qed.

(** The date reasoning of the extension check: an old booking that did not
    overlap [other], and that the check let through, does not overlap it
    once extended. *)
Lemma extension_window_covers (ai cur prop bi bo : date) :
  date_lt ai bo && date_lt bi cur = false ->
  (date_lt bi prop = true -> date_lt cur bo && date_lt bi prop = false) ->
  (forall o, bo = Some o -> date_lt bi bo = true) ->
  (cur = None -> prop = None) ->
  date_lt ai bo && date_lt bi prop = false.
Proof.
  intros Hold Hchk Hpos Hnone.
  destruct (date_lt ai bo) eqn:E1; [simpl|reflexivity].
  destruct (date_lt bi prop) eqn:E2; [exfalso|reflexivity].
  specialize (Hchk eq_refl); rewrite andb_true_r in Hchk.
  simpl in Hold.
  destruct ai as [a|], bo as [o|], bi as [i|], prop as [p|], cur as [c|];
    simpl in *; try discriminate;
    try (specialize (Hnone eq_refl); discriminate).
  specialize (Hpos o eq_refl).
  apply Z.ltb_lt in Hpos; apply Z.ltb_ge in Hchk.
  assert ((i <? c) = true) by (apply Z.ltb_lt; lia); congruence.
Qed.

(** When the spec's checks all pass, the candidate overlaps no booking on
    its unit. *)
Lemma spec_accepts_no_overlap (c : Booking) (s : list BookingRow) (b : BookingRow) :
  evaluateNewBooking_spec c s = None -> In b s -> rowUnit b = unitID c ->
  overlaps (mkRow 0 c) b = false.
Proof.
  unfold evaluateNewBooking_spec; intros Hs Hb Hu.
  destruct (existsb _ s); [discriminate|].
  destruct (existsb _ s); [discriminate|].
  destruct (existsb _ s); [discriminate|].
  destruct (existsb _ s) eqn:E4; [discriminate|].
  destruct (overlaps (mkRow 0 c) b) eqn:Ho; [|reflexivity].
  rewrite <- E4; symmetry; apply existsb_exists; exists b; split; [exact Hb|].
  rewrite Hu, String.eqb_refl, Ho, andb_true_r; simpl.
  unfold overlaps in Ho; apply andb_true_iff in Ho; apply Ho.
Qed.

Lemma id_update (i : Z) (n : jsnum) (x : BookingRow) :
  id (if id x =? i then set_nights x n else x) = id x.
Proof. destruct (id x =? i); reflexivity. Qed.

(** The extended booking overlaps no other booking on its unit that the
    extension check let through. *)
Lemma extended_no_overlap (s : list BookingRow) (bo b : BookingRow) (e : jsnum) :
  wf_store s -> no_overlap s -> In bo s -> In b s ->
  id b <> id bo -> rowUnit b = rowUnit bo -> invalid_extra e = false ->
  (exists m, e = JNum (inject_Z m)) ->
  existsb (fun o => String.eqb (rowUnit o) (rowUnit bo)
                    && negb (id o =? id bo)
                    && date_lt (rowCheckIn o) (addNights (checkOut bo) e)
                    && (date_lt (checkOut bo) (checkOut o)
                        && date_lt (rowCheckIn o) (addNights (checkOut bo) e))) s = false ->
  overlaps (set_nights bo (js_add (rowNights bo) e)) b = false.
Proof.
  intros [Hnd Hwf] Hno Hbo Hb Hid Hu He [m Hm] Hex.
  unfold overlaps; rewrite Hm.
  rewrite extended_checkout by (auto; apply whole_valid; rewrite <- Hm; exact He).
  rewrite <- Hm.
  apply (extension_window_covers _ (checkOut bo)).
  - apply (Hno bo b Hbo Hb); auto.
  - intros Hlt.
    destruct (date_lt (checkOut bo) (checkOut b)
              && date_lt (rowCheckIn b) (addNights (checkOut bo) e)) eqn:Hc;
      [|reflexivity].
    rewrite <- Hex; symmetry; apply existsb_exists; exists b; split; [exact Hb|].
    rewrite Hu, String.eqb_refl, Hc, Hlt.
    apply Z.eqb_neq in Hid; rewrite Hid; reflexivity.
  - intros o Ho; rewrite Ho; apply wf_row_after; auto.
  - intros ->; reflexivity.
Qed.

Lemma existsb_all_false {A : Type} (f : A -> bool) (l : list A) :
  (forall x, In x l -> f x = false) -> existsb f l = false.
Proof.
  intros H; destruct (existsb f l) eqn:E; [|reflexivity].
  apply existsb_exists in E; destruct E as [x [Hx Hf]]; rewrite H in Hf; auto.
Qed.

(** The verdict of [isBookingPossible], and of its variant without check 3,
    as a function of the store. *)
Lemma isBookingPossible_fst (c : Booking) (w : World) :
  let cand := mkRow 0 c in
  let p1 := fun b => String.eqb (rowGuest b) (guestName c) && String.eqb (rowUnit b) (unitID c) in
  let p2 := fun b => String.eqb (rowGuest b) (guestName c) in
  let p3 := fun b => String.eqb (rowUnit b) (unitID c) && date_eq (rowCheckIn b) (checkInDate c) in
  let p4 := fun b => String.eqb (rowUnit b) (unitID c)
                     && date_lt (rowCheckIn b) (checkOut cand) && overlaps cand b in
  fst (isBookingPossible c w)
  = (if existsb p1 (store w) then mkOutcome false GUEST_UNIT_DUPLICATE
     else if existsb p2 (store w) then mkOutcome false GUEST_ALREADY_BOOKED
     else if existsb p3 (store w) then mkOutcome false UNIT_OCCUPIED
     else if existsb p4 (store w) then mkOutcome false UNIT_OCCUPIED
     else mkOutcome true OK)
  /\ fst (isBookingPossible_no3 c w)
  = (if existsb p1 (store w) then mkOutcome false GUEST_UNIT_DUPLICATE
     else if existsb p2 (store w) then mkOutcome false GUEST_ALREADY_BOOKED
     else if existsb p4 (store w) then mkOutcome false UNIT_OCCUPIED
     else mkOutcome true OK).
Proof.
  intros cand p1 p2 p3 p4; subst cand p1 p2 p3 p4; destruct w as [s l].
  unfold isBookingPossible, isBookingPossible_no3, bind, ret, findMany, record_access,
    overlaps, checkOut; simpl.
  rewrite !nonempty_filter.
  destruct (existsb (fun b => String.eqb (rowGuest b) (guestName c)
                              && String.eqb (rowUnit b) (unitID c)) s);
    simpl; [auto|].
  rewrite !nonempty_filter.
  destruct (existsb (fun b => String.eqb (rowGuest b) (guestName c)) s);
    simpl; [auto|].
  rewrite !nonempty_filter.
  rewrite (existsb_ext (fun b => date_eq (rowCheckIn b) (checkInDate c)
                                 && String.eqb (rowUnit b) (unitID c))
                       (fun b => String.eqb (rowUnit b) (unitID c)
                                 && date_eq (rowCheckIn b) (checkInDate c)))
    by (intros x; apply andb_comm).
  rewrite !existsb_filter.
  destruct (existsb (fun b => String.eqb (rowUnit b) (unitID c)
                              && date_eq (rowCheckIn b) (checkInDate c)) s);
    simpl; rewrite ?existsb_filter; destruct (existsb _ s); split; reflexivity.
Qed.

(** * Claims *)

(** C2: [createBooking] runs the four checks in the spec's order and the
    first failing one gives the reason (it agrees with
    [evaluateNewBooking_spec], and accepts with a fresh row when none
    fails); in particular a guest who already has a booking on the same
    unit gets [GUEST_UNIT_DUPLICATE], not [GUEST_ALREADY_BOOKED]. *)
Theorem new_booking_check_order :
  (forall c w,
     fst (createBooking c w)
     = match evaluateNewBooking_spec c (store w) with
       | Some r => Rejected r
       | None => Accepted (mkRow (max_id (store w) + 1) c)
       end)
  /\ (forall c w b,
        In b (store w) -> rowGuest b = guestName c -> rowUnit b = unitID c ->
        fst (createBooking c w) = Rejected GUEST_UNIT_DUPLICATE).
Proof.
  assert (Hrun : forall c w,
     fst (createBooking c w)
     = match evaluateNewBooking_spec c (store w) with
       | Some r => Rejected r
       | None => Accepted (mkRow (max_id (store w) + 1) c)
       end).
  { intros c w; pose proof (createBooking_run c w) as H.
    destruct (evaluateNewBooking_spec c (store w)); apply H. }
  split; [exact Hrun|].
  intros c w b Hb Hg Hu; rewrite Hrun; unfold evaluateNewBooking_spec.
  replace (existsb _ (store w)) with true; [reflexivity|].
  symmetry; apply existsb_exists; exists b; split; [exact Hb|].
  rewrite Hg, Hu, !String.eqb_refl; reflexivity.
Qed.

(** C3: for a valid [extraNights] and a booking found by its id,
    [extendBooking] rejects with [EXTENSION_CONFLICT] exactly when another
    booking on the same unit (a different id) has its check-in before the
    proposed checkout and satisfies [currentCheckout < otherCheckout] and
    [otherCheckIn < proposedCheckout]. *)
Theorem extension_conflict_iff (i : Z) (e : jsnum) (w : World) (b : BookingRow) :
  invalid_extra e = false ->
  find (fun x => id x =? i) (store w) = Some b ->
  (fst (extendBooking i e w) = Rejected EXTENSION_CONFLICT <->
   exists other, In other (store w) /\ rowUnit other = rowUnit b /\ id other <> id b
     /\ date_lt (rowCheckIn other) (addNights (checkOut b) e) = true
     /\ date_lt (checkOut b) (checkOut other) = true
     /\ date_lt (rowCheckIn other) (addNights (checkOut b) e) = true).
Proof.
  intros Hv Hf; pose proof (extendBooking_run i e w) as H.
  rewrite Hv, Hf in H; simpl in H.
  destruct (existsb _ (store w)) eqn:E; destruct H as [H _]; rewrite H.
  - split; [intros _|reflexivity].
    apply existsb_exists in E; destruct E as [o [Ho E]].
    apply andb_true_iff in E; destruct E as [E E5].
    apply andb_true_iff in E5; destruct E5 as [E5 E6].
    apply andb_true_iff in E; destruct E as [E E4].
    apply andb_true_iff in E; destruct E as [E2 E3].
    apply String.eqb_eq in E2; apply negb_true_iff, Z.eqb_neq in E3.
    exists o; repeat split; assumption.
  - split; [discriminate|].
    intros [o [Ho [Hu [Hid [H1 [H2 H3]]]]]].
    assert (existsb (fun o => String.eqb (rowUnit o) (rowUnit b)
                           && negb (id o =? id b)
                           && date_lt (rowCheckIn o) (addNights (checkOut b) e)
                           && (date_lt (checkOut b) (checkOut o)
                               && date_lt (rowCheckIn o) (addNights (checkOut b) e)))
                    (store w) = true) as E'.
    { apply existsb_exists; exists o; split; [exact Ho|].
      cbv beta; rewrite Hu, String.eqb_refl, H1, H2.
      apply Z.eqb_neq in Hid; rewrite Hid; reflexivity. }
    unfold checkOut in E, E'; rewrite E in E'; discriminate.
Qed.

(** Witness of C3: GuestA holds unit 1 for 5 nights, GuestC holds it from
    day 5 for 2 nights; a 1-night extension of GuestA's booking conflicts. *)
Lemma extension_conflict_iff_witness :
  invalid_extra (JNum 1) = false
  /\ find (fun x => id x =? 1) (store scenario_blocked) = Some (row 1 "GuestA" "1" today 5)
  /\ fst (extendBooking 1 (JNum 1) scenario_blocked) = Rejected EXTENSION_CONFLICT.
Proof.
  split; [reflexivity|]. split; [reflexivity|].
  apply (proj2 (extension_conflict_iff 1 (JNum 1) scenario_blocked
                  (row 1 "GuestA" "1" today 5) eq_refl eq_refl)).
  exists (row 2 "GuestC" "1" (today + 5) 2).
  split; [simpl; auto|].
  split; [reflexivity|]. split; [discriminate|].
  vm_compute; repeat split; reflexivity.
Defined.

(** C5 (counterexample): check 1 is reachable.  GuestA holds unit 1 and
    asks for unit 1 again: the answer is [GUEST_UNIT_DUPLICATE]. *)
Lemma guest_unit_duplicate_reachable :
  fst (createBooking (mkBooking "GuestA" "1" (Some today) (JNum 5))
                     (world0 [row 1 "GuestA" "1" today 5]))
  = Rejected GUEST_UNIT_DUPLICATE.
Proof. vm_compute. reflexivity. Qed.

(** C5 (amended): [createBooking] rejects with [GUEST_UNIT_DUPLICATE]
    exactly when some existing booking has the candidate's guest name and
    unit; check 2 is reached only when there is none. *)
Theorem guest_unit_duplicate_iff (c : Booking) (w : World) :
  fst (createBooking c w) = Rejected GUEST_UNIT_DUPLICATE <->
  exists b, In b (store w) /\ rowGuest b = guestName c /\ rowUnit b = unitID c.
Proof.
  rewrite createBooking_fst; unfold evaluateNewBooking_spec.
  split.
  - destruct (existsb _ (store w)) eqn:E1.
    + intros _; apply existsb_exists in E1; destruct E1 as [b [Hb E]].
      apply andb_true_iff in E; destruct E as [E1 E2].
      apply String.eqb_eq in E1, E2; eauto.
    + repeat match goal with |- context [if ?x then _ else _] => destruct x end;
        discriminate.
  - intros [b [Hb [Hg Hu]]].
    replace (existsb _ (store w)) with true; [reflexivity|].
    symmetry; apply existsb_exists; exists b; split; [exact Hb|].
    rewrite Hg, Hu, !String.eqb_refl; reflexivity.
Qed.

(** C8: [extendBooking] rejects with [INVALID_EXTRA_NIGHTS] exactly when
    [extraNights] is NaN (non-numeric), zero or negative, and on that path
    the world, store and access log alike, is returned untouched. *)
Theorem invalid_extra_nights_first (i : Z) (e : jsnum) (w : World) :
  (fst (extendBooking i e w) = Rejected INVALID_EXTRA_NIGHTS <->
   e = JNaN \/ e = JNegInf \/ exists q, e = JNum q /\ (q <= 0)%Q)
  /\ ((e = JNaN \/ e = JNegInf \/ exists q, e = JNum q /\ (q <= 0)%Q) ->
      extendBooking i e w = (Rejected INVALID_EXTRA_NIGHTS, w)).
Proof.
  rewrite <- invalid_extra_spec.
  pose proof (extendBooking_run i e w) as H.
  destruct (invalid_extra e).
  - rewrite H; simpl; tauto.
  - split; [|discriminate].
    split; [|discriminate].
    destruct (find _ (store w)) as [b|]; simpl in H.
    + destruct (existsb _ _); destruct H as [H _]; rewrite H; discriminate.
    + destruct H as [H _]; rewrite H; discriminate.
Qed.

(** C9: an accepted extension returns the found booking with
    [numberOfNights] set to old plus [extraNights], same id, guest, unit
    and check-in date, and the new store differs from the old one only at
    that booking's id. *)
Theorem extension_frame (i : Z) (e : jsnum) (w w' : World) (r : BookingRow) :
  extendBooking i e w = (Accepted r, w') ->
  exists b, find (fun x => id x =? i) (store w) = Some b
    /\ id r = id b /\ id b = i
    /\ rowGuest r = rowGuest b /\ rowUnit r = rowUnit b /\ rowCheckIn r = rowCheckIn b
    /\ rowNights r = js_add (rowNights b) e
    /\ store w' = map (fun x => if id x =? i then set_nights x (rowNights r) else x) (store w).
Proof.
  intros Hext; pose proof (extendBooking_run i e w) as H.
  rewrite Hext in H; simpl in H.
  destruct (invalid_extra e); [discriminate|].
  destruct (find _ (store w)) as [b|] eqn:Hf; [|destruct H; discriminate].
  destruct (existsb _ _); destruct H as [H1 H2]; [discriminate|].
  injection H1 as ->.
  pose proof (find_in _ _ _ Hf) as [_ Hi]; apply Z.eqb_eq in Hi.
  exists b; repeat split; try reflexivity; [exact Hi|].
  rewrite H2, Hi; reflexivity.
Qed.

(** Witness of C9: 5 nights extended by 2 become 7. *)
Lemma extension_frame_witness :
  exists w', extendBooking 1 (JNum 2) (world0 [row 1 "GuestA" "1" today 5])
             = (Accepted (row 1 "GuestA" "1" today 7), w')
  /\ exists b, find (fun x => id x =? 1) [row 1 "GuestA" "1" today 5] = Some b
    /\ id (row 1 "GuestA" "1" today 7) = id b /\ id b = 1
    /\ rowNights (row 1 "GuestA" "1" today 7) = js_add (rowNights b) (JNum 2)
    /\ store w' = map (fun x => if id x =? 1 then set_nights x (JNum 7) else x)
                      [row 1 "GuestA" "1" today 5].
Proof.
  eexists; split; [vm_compute; reflexivity|].
  destruct (extension_frame 1 (JNum 2) (world0 [row 1 "GuestA" "1" today 5])
              (snd (extendBooking 1 (JNum 2) (world0 [row 1 "GuestA" "1" today 5])))
              (row 1 "GuestA" "1" today 7) (eq_refl _))
    as [b [Hf [Hid [Hi [_ [_ [_ [Hn Hs]]]]]]]].
  exists b; repeat split; assumption.
Defined.

(** C10: [extraNights = 1.5] passes the validation (numeric and positive is
    all it asks), and the extension of a 5-night booking hands the store
    the non-integer count 6.5, which the store then holds. *)
Lemma fractional_extension_stored :
  exists w',
    extendBooking 1 (JNum (3 # 2)) (world0 [row 1 "GuestA" "1" today 5])
    = (Accepted (row 1 "GuestA" "1" today (13 # 2)), w')
    /\ invalid_extra (JNum (3 # 2)) = false
    /\ In (AUpdate 1 (JNum (13 # 2))) (log w')
    /\ In (row 1 "GuestA" "1" today (13 # 2)) (store w')
    /\ js_is_integer (JNum (13 # 2)) = false.
Proof.
  eexists; split; [vm_compute; reflexivity|].
  vm_compute; repeat split; auto.
Qed.

(** C1 (counterexample): two ways an accepted extension breaks the
    invariant.  First, GuestC holds a 0-night booking on unit 1 starting at
    GuestA's checkout (day 5); the 1-night extension of GuestA's booking
    passes the extension check.  Second, in a store of whole, positive
    night counts, GuestA (2024-10-30, 2 nights) and GuestC (2024-11-01, 2
    nights) share unit 1, and GuestA's booking is extended by
    0.9999999999999998: the proposed checkout is [setDate(1 +
    0.9999999999999998)], still 2024-11-01, so GuestC's booking is not
    fetched, but the stored count [2 + 0.9999999999999998] rounds to 3 and
    the booking now ends on 2024-11-02. *)
Lemma extension_breaks_no_overlap :
  (no_overlap store_touching
   /\ exists r w', extendBooking 1 (JNum 1) (world0 store_touching) = (Accepted r, w')
                   /\ ~ no_overlap (store w'))
  /\ (wf_store store_rounding /\ no_overlap store_rounding
      /\ exists r w', extendBooking 1 extra_rounding (world0 store_rounding) = (Accepted r, w')
                      /\ rowNights r = JNum 3
                      /\ ~ no_overlap (store w')).
Proof.
  split.
  - split; [apply no_overlapb_spec; vm_compute; reflexivity|].
    do 2 eexists; split; [vm_compute; reflexivity|].
    rewrite <- no_overlapb_spec; vm_compute; discriminate.
  - split.
    { split; [repeat constructor; simpl; intuition discriminate|].
      intros b [<-|[<-|[]]].
      - exists (today + 26), 2; repeat split; [vm_compute; discriminate|lia].
      - exists (today + 28), 2; repeat split; [vm_compute; discriminate|lia]. }
    split; [apply no_overlapb_spec; vm_compute; reflexivity|].
    do 2 eexists; split; [vm_compute; reflexivity|].
    split; [vm_compute; reflexivity|].
    rewrite <- no_overlapb_spec; vm_compute; discriminate.
Qed.

(** C1 (amended): an accepted [createBooking] preserves the non-overlap
    invariant for every candidate; an accepted [extendBooking] preserves it
    when every stored booking has a genuine check-in date and a whole
    [numberOfNights >= 1], ids are distinct, and [extraNights] is a whole
    number. *)
Theorem engines_preserve_no_overlap :
  (forall c w r,
     no_overlap (store w) -> fst (createBooking c w) = Accepted r ->
     no_overlap (store (snd (createBooking c w))))
  /\ (forall i e w r,
        wf_store (store w) -> no_overlap (store w) ->
        (exists m, e = JNum (inject_Z m)) ->
        fst (extendBooking i e w) = Accepted r ->
        no_overlap (store (snd (extendBooking i e w)))).
Proof.
  split.
  - intros c w r Hno Hacc.
    pose proof (createBooking_run c w) as H.
    destruct (evaluateNewBooking_spec c (store w)) eqn:Es;
      destruct H as [H1 H2]; [congruence|].
    rewrite H2; intros a b Ha Hb Hid Hu.
    apply in_app_or in Ha, Hb.
    destruct Ha as [Ha|[<-|[]]]; destruct Hb as [Hb|[<-|[]]].
    + apply Hno; auto.
    + rewrite overlaps_sym; apply (spec_accepts_no_overlap c (store w)); auto.
    + apply (spec_accepts_no_overlap c (store w)); auto.
    + congruence.
  - intros i e w r Hwf Hno Hwhole Hacc.
    pose proof (extendBooking_run i e w) as H.
    destruct (invalid_extra e) eqn:He; [rewrite H in Hacc; discriminate|].
    destruct (find _ (store w)) as [bo|] eqn:Hf; [|destruct H; congruence].
    cbv zeta in H.
    destruct (existsb _ (store w)) eqn:Hex; destruct H as [H1 H2]; [congruence|].
    apply find_in in Hf; destruct Hf as [Hbo _].
    rewrite H2; intros a' b' Ha' Hb' Hid Hu.
    apply in_map_iff in Ha', Hb'.
    destruct Ha' as [a [<- Ha]], Hb' as [b [<- Hb]].
    rewrite !id_update in Hid.
    destruct (id a =? id bo) eqn:Ea, (id b =? id bo) eqn:Eb;
      apply Z.eqb_eq in Ea || apply Z.eqb_neq in Ea;
      apply Z.eqb_eq in Eb || apply Z.eqb_neq in Eb.
    + congruence.
    + assert (a = bo) by (apply (NoDup_map_id (store w)); auto; apply Hwf).
      subst a; apply (extended_no_overlap (store w)); auto.
    + assert (b = bo) by (apply (NoDup_map_id (store w)); auto; apply Hwf).
      subst b; rewrite overlaps_sym; apply (extended_no_overlap (store w)); auto.
    + apply Hno; auto.
Qed.

(** C4 (counterexample): GuestA's 0-night booking on unit 1 ends exactly at
    GuestB's check-in, GuestB holds no booking, yet GuestB's request is
    rejected: the 0-night booking has the same check-in date (check 3). *)
Lemma back_to_back_zero_night_rejected :
  (forall b, In b store_zero_night -> rowGuest b <> guestName candidate_after_zero)
  /\ (forall b, In b store_zero_night -> rowUnit b = unitID candidate_after_zero ->
        checkOut b = checkInDate candidate_after_zero
        \/ rowCheckIn b = checkOut (mkRow 0 candidate_after_zero))
  /\ fst (createBooking candidate_after_zero (world0 store_zero_night)) = Rejected UNIT_OCCUPIED.
Proof.
  split; [intros b [<-|[]]; discriminate|].
  split; [intros b [<-|[]] _; left; vm_compute; reflexivity|].
  vm_compute; reflexivity.
Qed.

(** C4 (amended): a candidate from a guest holding no booking is accepted
    when every booking on its unit ends exactly at the candidate's check-in
    or starts exactly at its checkout, provided the candidate and those
    bookings have [numberOfNights >= 1]. *)
Theorem back_to_back_accepted (c : Booking) (w : World) :
  (forall b, In b (store w) -> rowGuest b <> guestName c) ->
  (exists q, numberOfNights c = JNum q /\ (1 <= q)%Q) ->
  (forall b, In b (store w) -> rowUnit b = unitID c ->
     (exists q, rowNights b = JNum q /\ (1 <= q)%Q)
     /\ (checkOut b = checkInDate c \/ rowCheckIn b = checkOut (mkRow 0 c))) ->
  fst (createBooking c w) = Accepted (mkRow (max_id (store w) + 1) c).
Proof.
  intros Hg [qc [Hqc Hc1]] Hunit.
  rewrite createBooking_fst; unfold evaluateNewBooking_spec.
  assert (Hng : forall b, In b (store w) -> String.eqb (rowGuest b) (guestName c) = false)
    by (intros b Hb; apply String.eqb_neq, Hg, Hb).
  rewrite (existsb_all_false _ (store w))
    by (intros b Hb; rewrite Hng by exact Hb; reflexivity).
  rewrite (existsb_all_false _ (store w)) by exact Hng.
  rewrite (existsb_all_false _ (store w)).
  2:{ intros b Hb.
      destruct (String.eqb_spec (rowUnit b) (unitID c)) as [Hu|]; [simpl|reflexivity].
      destruct (Hunit b Hb Hu) as [[qb [Hqb Hb1]] [Hend|Hstart]].
      - destruct (checkInDate c) as [x|] eqn:Hx; [|destruct (rowCheckIn b); reflexivity].
        unfold checkOut in Hend; rewrite Hqb in Hend.
        apply addNights_after in Hend; [|exact Hb1].
        destruct Hend as [t [Ht Hlt]]; rewrite Ht; simpl; apply Z.eqb_neq; lia.
      - destruct (checkOut (mkRow 0 c)) as [o|] eqn:Ho; rewrite Hstart; [|reflexivity].
        unfold checkOut, rowNights in Ho; simpl in Ho; rewrite Hqc in Ho.
        apply addNights_after in Ho; [|exact Hc1].
        destruct Ho as [t [Ht Hlt]]; change (rowCheckIn (mkRow 0 c)) with (checkInDate c) in Ht; rewrite Ht; simpl; apply Z.eqb_neq; lia. }
  rewrite (existsb_all_false _ (store w)); [reflexivity|].
  intros b Hb.
  destruct (String.eqb_spec (rowUnit b) (unitID c)) as [Hu|]; [simpl|reflexivity].
  destruct (Hunit b Hb Hu) as [_ [Hend|Hstart]].
  - unfold overlaps; rewrite Hend; simpl rowCheckIn at 2.
    rewrite date_lt_irrefl; simpl; rewrite andb_false_r; reflexivity.
  - rewrite Hstart, date_lt_irrefl; reflexivity.
Qed.

(** Witness of C4 (amended): GuestB books unit 1 from GuestA's checkout. *)
Lemma back_to_back_accepted_witness :
  fst (createBooking candidate_back_to_back (world0 store_one_night))
  = Accepted (mkRow (max_id store_one_night + 1) candidate_back_to_back).
Proof.
  apply back_to_back_accepted.
  - intros b [<-|[]]; discriminate.
  - exists 2%Q; split; [reflexivity|discriminate].
  - intros b [<-|[]] _; split.
    + exists 5%Q; split; [reflexivity|discriminate].
    + left; vm_compute; reflexivity.
Defined.

(** C6 (counterexample): on the last representable day, GuestA holds unit 1
    for one night and GuestB asks for the same night.  Every night count is
    1, yet check 3 rejects while the variant without it accepts: the
    candidate's checkout is the invalid date, so check 4 finds nothing. *)
Lemma check3_not_redundant_at_date_limit :
  (forall b, In b store_last_day -> exists q, rowNights b = JNum q /\ (1 <= q)%Q)
  /\ (exists q, numberOfNights candidate_last_day = JNum q /\ (1 <= q)%Q)
  /\ fst (isBookingPossible candidate_last_day (world0 store_last_day))
     = mkOutcome false UNIT_OCCUPIED
  /\ fst (isBookingPossible_no3 candidate_last_day (world0 store_last_day))
     = mkOutcome true OK.
Proof.
  split; [intros b [<-|[]]; exists 1%Q; split; [reflexivity|apply Qle_refl]|].
  split; [exists 1%Q; split; [reflexivity|apply Qle_refl]|].
  split; vm_compute; reflexivity.
Qed.

(** C6 (amended): when every stored booking and the candidate have
    [numberOfNights >= 1] and valid checkout dates, dropping check 3 leaves
    the verdict and the reason of [isBookingPossible] unchanged. *)
Theorem check3_subsumed (c : Booking) (w : World) :
  (forall b, In b (store w) ->
     (exists q, rowNights b = JNum q /\ (1 <= q)%Q) /\ checkOut b <> None) ->
  (exists q, numberOfNights c = JNum q /\ (1 <= q)%Q) ->
  checkOut (mkRow 0 c) <> None ->
  fst (isBookingPossible c w) = fst (isBookingPossible_no3 c w).
Proof.
  intros Hs [qc [Hqc Hc1]] Hco.
  destruct (isBookingPossible_fst c w) as [-> ->].
  destruct (existsb _ (store w)); [reflexivity|].
  destruct (existsb _ (store w)); [reflexivity|].
  destruct (existsb _ (store w)) eqn:E3; [|reflexivity].
  replace (existsb _ (store w)) with true; [reflexivity|].
  symmetry; apply existsb_exists in E3; destruct E3 as [b [Hb E3]].
  apply andb_true_iff in E3; destruct E3 as [Hu E3].
  apply existsb_exists; exists b; split; [exact Hb|].
  destruct (Hs b Hb) as [[qb [Hqb Hb1]] Hbo].
  destruct (checkOut (mkRow 0 c)) as [o|] eqn:Ho; [|congruence].
  destruct (checkOut b) as [ob|] eqn:Hob; [|congruence].
  pose proof Ho as Ho'; pose proof Hob as Hob'.
  unfold checkOut, rowNights in Ho'; simpl in Ho'; rewrite Hqc in Ho'.
  apply addNights_after in Ho'; [|exact Hc1]; destruct Ho' as [t [Ht Hlt]].
  change (rowCheckIn (mkRow 0 c)) with (checkInDate c) in Ht.
  unfold checkOut in Hob'; rewrite Hqb in Hob'.
  apply addNights_after in Hob'; [|exact Hb1]; destruct Hob' as [tb [Htb Hltb]].
  rewrite Ht, Htb in E3; simpl in E3; apply Z.eqb_eq in E3; subst tb.
  unfold overlaps; rewrite Hu, Ho, Hob, Htb.
  change (rowCheckIn (mkRow 0 c)) with (checkInDate c); rewrite Ht; simpl.
  apply Z.ltb_lt in Hlt, Hltb; rewrite Hlt, Hltb; reflexivity.
Qed.


(** Witness of C6 (amended): GuestB asks for unit 1 on GuestA's check-in
    day; both versions reject with [UNIT_OCCUPIED]. *)
Lemma check3_subsumed_witness :
  fst (isBookingPossible (mkBooking "GuestB" "1" (Some today) (JNum 2)) (world0 store_one_night))
  = fst (isBookingPossible_no3 (mkBooking "GuestB" "1" (Some today) (JNum 2)) (world0 store_one_night))
  /\ fst (isBookingPossible (mkBooking "GuestB" "1" (Some today) (JNum 2)) (world0 store_one_night))
     = mkOutcome false UNIT_OCCUPIED.
Proof.
  split; [|vm_compute; reflexivity].
  apply check3_subsumed.
  - intros b [<-|[]]; split; [exists 5%Q; split; [reflexivity|discriminate]|].
    vm_compute; discriminate.
  - exists 2%Q; split; [reflexivity|discriminate].
  - vm_compute; discriminate.
Defined.

(** C7 (counterexample): a 0-night request on an empty store is accepted
    and stored with [numberOfNights = 0]. *)
Lemma zero_night_booking_stored :
  createBooking (mkBooking "GuestA" "1" (Some today) (JNum 0)) (world0 [])
  = (Accepted (row 1 "GuestA" "1" today 0),
     mkWorld [row 1 "GuestA" "1" today 0]
             [AFindMany; AFindMany; AFindMany; AFindMany; ACreate (row 1 "GuestA" "1" today 0)]).
Proof. vm_compute. reflexivity. Qed.

(** C7 (amended): [createBooking] stores the requested [numberOfNights] as
    given, without a positivity check.  An accepted extension sets it to the
    old value plus an [extraNights] that passed validation, rounded to a
    double: from a whole count below [2^53] the count never decreases (or
    becomes +Infinity), and it strictly increases when [extraNights] is a
    whole number; a tiny fraction may be absorbed by the rounding. *)
Theorem nights_as_given_extension_increases :
  (forall c w r, fst (createBooking c w) = Accepted r ->
     rowNights r = numberOfNights c
     /\ store (snd (createBooking c w)) = store w ++ [r])
  /\ (forall i e w r, fst (extendBooking i e w) = Accepted r ->
        exists b, In b (store w) /\ id b = i
          /\ invalid_extra e = false
          /\ rowNights r = js_add (rowNights b) e
          /\ forall k, 0 <= k < 2 ^ 53 -> rowNights b = JNum (inject_Z k) ->
               rowNights r = JPosInf
               \/ exists q', rowNights r = JNum q' /\ (inject_Z k <= q')%Q
                             /\ ((exists m, e = JNum (inject_Z m)) -> (inject_Z k < q')%Q)).
Proof.
  split.
  - intros c w r Hacc; pose proof (createBooking_run c w) as H.
    destruct (evaluateNewBooking_spec c (store w));
      destruct H as [H1 H2]; rewrite Hacc in H1; [discriminate|].
    injection H1 as ->; split; [reflexivity|exact H2].
  - intros i e w r Hacc; pose proof (extendBooking_run i e w) as H.
    destruct (invalid_extra e) eqn:He; [rewrite H in Hacc; discriminate|].
    destruct (find _ (store w)) as [b|] eqn:Hf; [|destruct H; congruence].
    cbv zeta in H.
    destruct (existsb _ (store w)); destruct H as [H1 _]; rewrite Hacc in H1;
      [discriminate|].
    injection H1 as ->.
    apply find_in in Hf; destruct Hf as [Hb Hi]; apply Z.eqb_eq in Hi.
    exists b; repeat split; auto.
    intros k Hk Hq; unfold set_nights, rowNights in *; simpl; rewrite Hq.
    destruct e as [| | |q2]; try discriminate He; [left; reflexivity|].
    change (js_add (JNum (inject_Z k)) (JNum q2)) with (round_double (inject_Z k + q2)).
    assert (Hq2 : (0 < q2)%Q).
    { unfold invalid_extra in He; simpl in He; apply orb_false_iff in He.
      destruct He as [_ He'].
      apply Qnot_le_lt; intros Hle; apply Qle_bool_iff in Hle; congruence. }
    assert (Hle : (inject_Z k <= inject_Z k + q2)%Q).
    { destruct q2 as [n d]; unfold Qlt, Qle in *; simpl in *; nia. }
    assert (Hx0 : (0 <= inject_Z k + q2)%Q).
    { apply Qle_trans with (inject_Z k); [unfold Qle; simpl; lia|exact Hle]. }
    destruct (round_double_lower (inject_Z k + q2) k) as [(y & Hy & Hky & Hsy)|Hinf].
    + lia.
    + rewrite Qabs_pos by exact Hx0; exact Hle.
    + right; exists y; split; [exact Hy|].
      rewrite Qabs_pos in Hky by (apply Hsy; exact Hx0).
      split; [exact Hky|].
      intros [m Hm]; injection Hm as ->.
      pose proof (whole_valid m He) as Hm.
      destruct (Z_lt_le_dec (k + m) (2 ^ 53)) as [Hs|Hs].
      * rewrite (round_double_int _ (k + m)) in Hy
          by (unfold Qeq; simpl; lia || lia).
        injection Hy as <-; unfold Qlt; simpl; lia.
      * destruct (round_double_lower (inject_Z k + inject_Z m) (2 ^ 53))
          as [(y' & Hy' & Hb' & Hs')|Hinf'].
        -- lia.
        -- rewrite Qabs_pos by exact Hx0; unfold Qle; simpl; lia.
        -- rewrite Hy in Hy'; injection Hy' as <-.
           rewrite Qabs_pos in Hb' by (apply Hs'; exact Hx0).
           apply Qlt_le_trans with (inject_Z (2 ^ 53)); [unfold Qlt; simpl; lia|exact Hb'].
        -- rewrite Hy in Hinf'; destruct (Qle_bool _ _); discriminate.
    + left; rewrite Hinf.
      rewrite (proj2 (Qle_bool_iff _ _) Hx0); reflexivity.
Qed.


(** * Further properties of the controller *)

(** X1: [createBooking] makes one [findMany] read per check it runs and
    stops at the first check that fails, writing nothing: a
    [GUEST_UNIT_DUPLICATE] rejection comes after one read, a
    [GUEST_ALREADY_BOOKED] one after two, and an [UNIT_OCCUPIED] one after
    three (check 3, a booking on the unit with the same check-in date) or
    four (check 4); these are its only rejections.  An acceptance makes all
    four reads and then exactly one [create], of the record it returns. *)
Theorem createBooking_accesses (c : Booking) (w : World) :
  (fst (createBooking c w) = Rejected GUEST_UNIT_DUPLICATE ->
     snd (createBooking c w) = mkWorld (store w) (log w ++ [AFindMany]))
  /\ (fst (createBooking c w) = Rejected GUEST_ALREADY_BOOKED ->
        snd (createBooking c w) = mkWorld (store w) (log w ++ [AFindMany; AFindMany]))
  /\ (fst (createBooking c w) = Rejected UNIT_OCCUPIED ->
        snd (createBooking c w)
        = mkWorld (store w)
            (log w ++ repeat AFindMany
                        (if existsb (fun b => date_eq (rowCheckIn b) (checkInDate c)
                                              && String.eqb (rowUnit b) (unitID c)) (store w)
                         then 3 else 4)))
  /\ (forall r, fst (createBooking c w) = Rejected r ->
        r = GUEST_UNIT_DUPLICATE \/ r = GUEST_ALREADY_BOOKED \/ r = UNIT_OCCUPIED)
  /\ (forall b, fst (createBooking c w) = Accepted b ->
        snd (createBooking c w)
        = mkWorld (store w ++ [b]) (log w ++ [AFindMany; AFindMany; AFindMany; AFindMany; ACreate b])).
Proof.
  destruct w as [s l].
  unfold createBooking, isBookingPossible, bind, ret, findMany, record_access, create.
  cbv beta iota zeta; rewrite ?nonempty_filter; simpl store; simpl log.
  repeat (rewrite ?nonempty_filter;
          match goal with |- context [if existsb ?p ?x then _ else _] =>
            destruct (existsb p x) end; simpl).
  all: repeat split; intros; try discriminate.
  all: try (match goal with H : _ = _ |- _ => injection H as <- end);
       rewrite <- ?app_assoc; simpl; auto.
Qed.

(** X2: [extendBooking] touches the store only when it accepts, and each
    rejection has its own trace: an invalid [extraNights] is rejected before
    any access, [BOOKING_NOT_FOUND] after the lookup by id alone, and
    [EXTENSION_CONFLICT] after the lookup and one [findMany]; these are its
    only rejections.  An acceptance makes the lookup, the [findMany] and
    exactly one [update] of the booking with that id, to the night count it
    returns. *)
Theorem extendBooking_accesses (i : Z) (e : jsnum) (w : World) :
  (fst (extendBooking i e w) = Rejected INVALID_EXTRA_NIGHTS -> snd (extendBooking i e w) = w)
  /\ (fst (extendBooking i e w) = Rejected BOOKING_NOT_FOUND ->
        snd (extendBooking i e w) = mkWorld (store w) (log w ++ [AFindUnique i]))
  /\ (fst (extendBooking i e w) = Rejected EXTENSION_CONFLICT ->
        snd (extendBooking i e w) = mkWorld (store w) (log w ++ [AFindUnique i; AFindMany]))
  /\ (forall r, fst (extendBooking i e w) = Rejected r ->
        r = INVALID_EXTRA_NIGHTS \/ r = BOOKING_NOT_FOUND \/ r = EXTENSION_CONFLICT)
  /\ (forall b, fst (extendBooking i e w) = Accepted b ->
        log (snd (extendBooking i e w))
        = log w ++ [AFindUnique i; AFindMany; AUpdate i (rowNights b)]).
Proof.
  destruct w as [s l].
  unfold extendBooking, bind, ret, findUnique, findMany, record_access, update.
  destruct (negb (js_truthy e) || js_le_zero e); simpl.
  { repeat split; intros; try discriminate; auto.
    match goal with H : _ = _ |- _ => injection H as <- end; auto. }
  destruct (find (fun b => id b =? i) s) as [bo|] eqn:Hf; simpl.
  2:{ repeat split; intros; try discriminate; auto.
      match goal with H : _ = _ |- _ => injection H as <- end; auto. }
  apply find_in in Hf; destruct Hf as [_ Hi]; apply Z.eqb_eq in Hi.
  destruct (existsb _ _); simpl.
  - repeat split; intros; try discriminate; rewrite <- ?app_assoc; auto.
    match goal with H : _ = _ |- _ => injection H as <- end; auto.
  - repeat split; intros; try discriminate.
    match goal with H : _ = _ |- _ => injection H as <- end.
    rewrite <- !app_assoc, Hi; reflexivity.
Qed.

(** X3: [extendBooking] answers [BOOKING_NOT_FOUND] exactly when
    [extraNights] is valid and no stored booking has the requested id. *)
Theorem extend_not_found_iff (i : Z) (e : jsnum) (w : World) :
  fst (extendBooking i e w) = Rejected BOOKING_NOT_FOUND <->
  invalid_extra e = false /\ forall b, In b (store w) -> id b <> i.
Proof.
  pose proof (extendBooking_run i e w) as H.
  destruct (invalid_extra e) eqn:He.
  { rewrite H; simpl; split; [discriminate|intros [Hf _]; discriminate]. }
  destruct (find (fun b => id b =? i) (store w)) as [bo|] eqn:Hf.
  - apply find_in in Hf as Hf'; destruct Hf' as [Hbo Hi]; apply Z.eqb_eq in Hi.
    cbv zeta in H; split.
    + destruct (existsb _ _); destruct H as [H _]; rewrite H; discriminate.
    + intros [_ Hno]; exfalso; exact (Hno bo Hbo Hi).
  - destruct H as [H _]; rewrite H; split; [intros _; split; [reflexivity|]|reflexivity].
    intros b Hb Hi.
    induction (store w) as [|x s IH]; [exact Hb|].
    simpl in Hf, Hb; destruct (id x =? i) eqn:Ex; [discriminate|].
    destruct Hb as [<-|Hb]; [apply Z.eqb_neq in Ex; exact (Ex Hi)|exact (IH Hf Hb)].
Qed.

(** X4: a booking never conflicts with itself: when no other booking is on
    its unit, an extension with a valid [extraNights] is accepted, whatever
    the booking's own dates. *)
Theorem extension_alone_accepted (i : Z) (e : jsnum) (w : World) (b : BookingRow) :
  invalid_extra e = false ->
  find (fun x => id x =? i) (store w) = Some b ->
  (forall o, In o (store w) -> rowUnit o = rowUnit b -> id o = id b) ->
  fst (extendBooking i e w) = Accepted (set_nights b (js_add (rowNights b) e)).
Proof.
  intros He Hf Halone; pose proof (extendBooking_run i e w) as H.
  rewrite He, Hf in H; cbv zeta in H.
  rewrite existsb_all_false in H; [apply H|].
  intros o Ho.
  destruct (String.eqb_spec (rowUnit o) (rowUnit b)) as [Hu|]; [|reflexivity].
  rewrite (Halone o Ho Hu), Z.eqb_refl; reflexivity.
Qed.

(** Witness of X4: GuestA's booking is alone on unit 1; GuestB's is on
    unit 2. *)
Lemma extension_alone_accepted_witness :
  fst (extendBooking 1 (JNum 3) (world0 [row 1 "GuestA" "1" today 5; row 2 "GuestB" "2" today 4]))
  = Accepted (set_nights (row 1 "GuestA" "1" today 5) (js_add (JNum 5) (JNum 3))).
Proof.
  apply (extension_alone_accepted 1 (JNum 3)
           (world0 [row 1 "GuestA" "1" today 5; row 2 "GuestB" "2" today 4])
           (row 1 "GuestA" "1" today 5) eq_refl eq_refl).
  intros o [<-|[<-|[]]] Hu; [reflexivity|discriminate].
Defined.

Lemma max_id_ge (s : list BookingRow) (b : BookingRow) : In b s -> id b <= max_id s.
Proof.
  induction s as [|x s IH]; simpl; [tauto|].
  intros [->|Hb]; [lia|specialize (IH Hb); lia].
Qed.

Lemma NoDup_snoc {A : Type} (l : list A) (x : A) :
  NoDup l -> ~ In x l -> NoDup (l ++ [x]).
Proof.
  intros Hl Hx; apply NoDup_app; [exact Hl|constructor; [tauto|constructor]|].
  intros a Ha [<-|[]]; exact (Hx Ha).
Qed.

Lemma create_keeps_unique_step (c : Booking) (w : World) (r : BookingRow) :
  fst (createBooking c w) = Accepted r ->
  store (snd (createBooking c w)) = store w ++ [r]
  /\ bk r = c
  /\ (forall b, In b (store w) -> id b <> id r /\ rowGuest b <> rowGuest r)
  /\ (ids_distinct (store w) -> ids_distinct (store (snd (createBooking c w))))
  /\ (guests_unique (store w) -> guests_unique (store (snd (createBooking c w)))).
Proof.
  intros Hacc; pose proof (createBooking_run c w) as H.
  destruct (evaluateNewBooking_spec c (store w)) eqn:Es;
    destruct H as [H1 H2]; rewrite Hacc in H1; [discriminate|].
  injection H1 as ->.
  assert (Hfresh : forall b, In b (store w) -> id b <> max_id (store w) + 1 /\
                                               rowGuest b <> guestName c).
  { intros b Hb; split; [pose proof (max_id_ge _ _ Hb); lia|].
    unfold evaluateNewBooking_spec in Es.
    destruct (existsb _ (store w)); [discriminate|].
    destruct (existsb _ (store w)) eqn:E2; [discriminate|].
    intros Hg; apply Bool.not_true_iff_false in E2; apply E2.
    apply existsb_exists; exists b; split; [exact Hb|rewrite Hg; apply String.eqb_refl]. }
  split; [exact H2|]. split; [reflexivity|]. split; [exact Hfresh|].
  unfold ids_distinct, guests_unique; rewrite H2, !map_app; simpl.
  split; intros Hnd; apply NoDup_snoc; auto; intros Hin; apply in_map_iff in Hin;
    destruct Hin as [b [Hb Hin]]; destruct (Hfresh b Hin) as [Hne Hg].
  - simpl in Hb; exact (Hne Hb).
  - exact (Hg Hb).
Qed.

(** X5: an accepted [createBooking] appends one record, holding the
    requested booking, whose id differs from every id in the store and
    whose guest holds no stored booking, so it keeps ids distinct and guests
    unique. *)
Theorem create_keeps_unique (c : Booking) (w : World) (r : BookingRow) :
  fst (createBooking c w) = Accepted r ->
  store (snd (createBooking c w)) = store w ++ [r]
  /\ bk r = c
  /\ (forall b, In b (store w) -> id b <> id r /\ rowGuest b <> rowGuest r)
  /\ (ids_distinct (store w) -> ids_distinct (store (snd (createBooking c w))))
  /\ (guests_unique (store w) -> guests_unique (store (snd (createBooking c w)))).
Proof. exact (create_keeps_unique_step c w r). Qed.

Lemma create_keeps_unique_witness :
  fst (createBooking candidate_back_to_back (world0 store_one_night))
  = Accepted (row 2 "GuestB" "1" (today + 5) 2)
  /\ guests_unique (store (snd (createBooking candidate_back_to_back (world0 store_one_night)))).
Proof.
  assert (H : fst (createBooking candidate_back_to_back (world0 store_one_night))
              = Accepted (row 2 "GuestB" "1" (today + 5) 2)) by reflexivity.
  split; [exact H|].
  apply (create_keeps_unique candidate_back_to_back (world0 store_one_night) _ H).
  vm_compute; constructor; [intros []|constructor].
Defined.

Lemma extend_keeps_keys_step (i : Z) (e : jsnum) (w : World) :
  map id (store (snd (extendBooking i e w))) = map id (store w)
  /\ map rowGuest (store (snd (extendBooking i e w))) = map rowGuest (store w)
  /\ map rowUnit (store (snd (extendBooking i e w))) = map rowUnit (store w)
  /\ map rowCheckIn (store (snd (extendBooking i e w))) = map rowCheckIn (store w).
Proof.
  pose proof (extendBooking_run i e w) as H.
  destruct (invalid_extra e); [rewrite H; auto|].
  destruct (find _ (store w)) as [b|]; [|destruct H as [_ ->]; auto].
  cbv zeta in H; destruct (existsb _ _); destruct H as [_ ->]; [auto|].
  rewrite !map_map; repeat split; apply map_ext; intros x;
    destruct (id x =? id b); reflexivity.
Qed.

(** X6: [extendBooking], whatever it answers, keeps the list of stored
    bookings with their ids, guests, units and check-in dates; only a night
    count can change. *)
Theorem extend_keeps_keys (i : Z) (e : jsnum) (w : World) :
  map id (store (snd (extendBooking i e w))) = map id (store w)
  /\ map rowGuest (store (snd (extendBooking i e w))) = map rowGuest (store w)
  /\ map rowUnit (store (snd (extendBooking i e w))) = map rowUnit (store w)
  /\ map rowCheckIn (store (snd (extendBooking i e w))) = map rowCheckIn (store w).
Proof. exact (extend_keeps_keys_step i e w). Qed.

(** X7: serving any sequence of create and extend requests keeps stored ids
    distinct and each guest on at most one booking; in particular every
    store reached from an empty one has both properties. *)
Theorem serve_keeps_unique (rs : list request) (w : World) :
  ids_distinct (store w) -> guests_unique (store w) ->
  ids_distinct (store (snd (serve rs w))) /\ guests_unique (store (snd (serve rs w))).
Proof.
  revert w; induction rs as [|r rs IH]; intros w Hid Hg; [auto|].
  simpl; unfold bind at 1.
  destruct (handle r w) as [o w1] eqn:Hh.
  assert (ids_distinct (store w1) /\ guests_unique (store w1)) as [Hid1 Hg1].
  { destruct r as [c|i e]; simpl in Hh.
    - destruct o as [b|x].
      + pose proof (create_keeps_unique_step c w b) as Hc; rewrite Hh in Hc; simpl in Hc.
        destruct (Hc eq_refl) as [_ [_ [_ [H1 H2]]]]; auto.
      + pose proof (createBooking_run c w) as Hc; rewrite Hh in Hc; simpl in Hc.
        destruct (evaluateNewBooking_spec c (store w));
          destruct Hc as [Hc1 Hc2]; [rewrite Hc2; auto|discriminate].
    - pose proof (extend_keeps_keys_step i e w) as [Hk [Hkg _]]; rewrite Hh in Hk, Hkg.
      unfold ids_distinct, guests_unique in *; simpl in Hk, Hkg.
      rewrite Hk, Hkg; auto. }
  specialize (IH w1 Hid1 Hg1).
  unfold bind; rewrite Hh; destruct (serve rs w1) as [os w2]; exact IH.
Qed.

(** Witness of X7: two guests booking and GuestA extending, from an empty
    store. *)
Lemma serve_keeps_unique_witness :
  ids_distinct (store (snd (serve [ReqCreate (mkBooking "GuestA" "1" (Some today) (JNum 5));
                                   ReqCreate (mkBooking "GuestA" "2" (Some today) (JNum 5));
                                   ReqCreate (mkBooking "GuestB" "1" (Some (today + 5)) (JNum 2));
                                   ReqExtend 1 (JNum 1)] (world0 []))))
  /\ guests_unique (store (snd (serve [ReqCreate (mkBooking "GuestA" "1" (Some today) (JNum 5));
                                   ReqCreate (mkBooking "GuestA" "2" (Some today) (JNum 5));
                                   ReqCreate (mkBooking "GuestB" "1" (Some (today + 5)) (JNum 2));
                                   ReqExtend 1 (JNum 1)] (world0 [])))).
Proof. apply serve_keeps_unique; constructor. Defined.

(** X8: [addNights] with a whole number of nights, of either sign, moves a
    valid date by exactly that many days, across month and year ends; the
    result is invalid only outside the JavaScript date range. *)
Theorem addNights_whole (t k : Z) :
  Z.abs t <= maxDay ->
  addNights (Some t) (JNum (inject_Z k)) = TimeClip (t + k).
Proof. intros Ht; apply addNights_int, Ht. Qed.

(** Witness of X8: 30 nights from 2024-10-04 reach 2024-11-03, and 90
    nights back reach 2024-07-06. *)
Lemma addNights_whole_witness :
  addNights (Some today) (JNum (inject_Z 30)) = Some (today + 30)
  /\ addNights (Some today) (JNum (inject_Z (-90))) = Some (today - 90).
Proof.
  split.
  - rewrite (addNights_whole today 30) by (vm_compute; discriminate).
    vm_compute; reflexivity.
  - rewrite (addNights_whole today (-90)) by (vm_compute; discriminate).
    vm_compute; reflexivity.
Defined.

(** X9: with a non-negative night count [q] such that the day of the
    month plus [q] is a double (so [+] does not round), [addNights] drops
    the fraction: it moves the date by [q] truncated to a whole number. *)
Theorem addNights_drops_fraction (t : Z) (q y : Q) :
  (0 <= q)%Q ->
  js_add (getDate (Some t)) (JNum q) = JNum y -> (y == inject_Z (dayOfMonth t) + q)%Q ->
  addNights (Some t) (JNum q) = TimeClip (t + Qtrunc q).
Proof.
  intros Hq Hadd Hy; unfold addNights; rewrite Hadd; simpl.
  rewrite (Qtrunc_compat _ _ Hy), Qtrunc_add_Z by (pose proof (dayOfMonth_pos t); lia || exact Hq).
  f_equal; lia.
Qed.

(** Witness of X9: 1.5 nights from 2024-10-04 reach 2024-10-05. *)
Lemma addNights_drops_fraction_witness :
  addNights (Some today) (JNum (3 # 2)) = Some (today + 1).
Proof.
  rewrite (addNights_drops_fraction today (3 # 2) (11 # 2)).
  - vm_compute; reflexivity.
  - discriminate.
  - vm_compute; reflexivity.
  - reflexivity.
Defined.

(** X10: for a stored booking with a valid check-in date and a whole
    number of nights, extended by a whole [extraNights], the checkout
    computed from its updated night count after an accepted extension is
    the proposed checkout the conflict check used: the current checkout
    moved by [extraNights]. *)
Theorem extension_new_checkout (i : Z) (e : jsnum) (w : World) (b r : BookingRow) :
  find (fun x => id x =? i) (store w) = Some b -> wf_row b ->
  (exists m, e = JNum (inject_Z m)) ->
  fst (extendBooking i e w) = Accepted r ->
  checkOut r = addNights (checkOut b) e.
Proof.
  intros Hf Hwf [m ->] Hacc; pose proof (extendBooking_run i (JNum (inject_Z m)) w) as H.
  destruct (invalid_extra _) eqn:He; [rewrite H in Hacc; discriminate|].
  rewrite Hf in H; cbv zeta in H.
  destruct (existsb _ _); destruct H as [H _]; rewrite Hacc in H; [discriminate|].
  injection H as ->; apply extended_checkout; [assumption|apply whole_valid, He].
Qed.

(** Witness of X10: 5 nights from 2024-10-04 extended by 2 check out on
    2024-10-11. *)
Lemma extension_new_checkout_witness :
  checkOut (row 1 "GuestA" "1" today 7) = addNights (checkOut (row 1 "GuestA" "1" today 5)) (JNum 2).
Proof.
  apply (extension_new_checkout 1 (JNum 2) (world0 store_one_night)).
  - reflexivity.
  - exists today, 5; repeat split; [vm_compute; discriminate|lia].
  - exists 2; reflexivity.
  - vm_compute; reflexivity.
Defined.

(** X11: a guest who holds a booking, but none on the requested unit, is
    rejected with [GUEST_ALREADY_BOOKED]. *)
Theorem other_unit_already_booked (c : Booking) (w : World) (b : BookingRow) :
  In b (store w) -> rowGuest b = guestName c ->
  (forall x, In x (store w) -> rowGuest x = guestName c -> rowUnit x <> unitID c) ->
  fst (createBooking c w) = Rejected GUEST_ALREADY_BOOKED.
Proof.
  intros Hb Hg Hother.
  rewrite createBooking_fst; unfold evaluateNewBooking_spec.
  rewrite existsb_all_false.
  2:{ intros x Hx.
      destruct (String.eqb_spec (rowGuest x) (guestName c)) as [Hgx|]; [simpl|reflexivity].
      apply String.eqb_neq, (Hother x Hx Hgx). }
  replace (existsb _ (store w)) with true; [reflexivity|].
  symmetry; apply existsb_exists; exists b; split; [exact Hb|].
  rewrite Hg; apply String.eqb_refl.
Qed.

(** Witness of X11: GuestA holds unit 1 and asks for unit 2. *)
Lemma other_unit_already_booked_witness :
  fst (createBooking (mkBooking "GuestA" "2" (Some today) (JNum 5)) (world0 store_one_night))
  = Rejected GUEST_ALREADY_BOOKED.
Proof.
  apply (other_unit_already_booked _ _ (row 1 "GuestA" "1" today 5)).
  - left; reflexivity.
  - reflexivity.
  - intros x [<-|[]] _; discriminate.
Defined.

(** X12: for a guest holding no booking, any stored booking on the same
    unit whose interval overlaps the requested one makes [createBooking]
    reject with [UNIT_OCCUPIED], whether it shares the check-in date
    (check 3) or not (check 4). *)
Theorem overlap_unit_occupied (c : Booking) (w : World) (b : BookingRow) :
  (forall x, In x (store w) -> rowGuest x <> guestName c) ->
  In b (store w) -> rowUnit b = unitID c -> overlaps (mkRow 0 c) b = true ->
  fst (createBooking c w) = Rejected UNIT_OCCUPIED.
Proof.
  intros Hg Hb Hu Ho.
  rewrite createBooking_fst; unfold evaluateNewBooking_spec.
  assert (Hng : forall x, In x (store w) -> String.eqb (rowGuest x) (guestName c) = false)
    by (intros x Hx; apply String.eqb_neq, Hg, Hx).
  rewrite (existsb_all_false _ (store w))
    by (intros x Hx; rewrite Hng by exact Hx; reflexivity).
  rewrite (existsb_all_false _ (store w)) by exact Hng.
  destruct (existsb _ (store w)); [reflexivity|].
  replace (existsb _ (store w)) with true; [reflexivity|].
  symmetry; apply existsb_exists; exists b; split; [exact Hb|].
  rewrite Hu, String.eqb_refl, Ho, andb_true_r; simpl.
  unfold overlaps in Ho; apply andb_true_iff in Ho; apply Ho.
Qed.

(** Witness of X12: GuestB asks for unit 1 from the day after GuestA's
    check-in, inside GuestA's 5 nights. *)
Lemma overlap_unit_occupied_witness :
  fst (createBooking (mkBooking "GuestB" "1" (Some (today + 1)) (JNum 5)) (world0 store_one_night))
  = Rejected UNIT_OCCUPIED.
Proof.
  apply (overlap_unit_occupied _ _ (row 1 "GuestA" "1" today 5)).
  - intros x [<-|[]]; discriminate.
  - left; reflexivity.
  - reflexivity.
  - vm_compute; reflexivity.
Defined.

(** X13: on an empty store [createBooking] accepts every request, whatever
    its dates and night count: after its four reads it creates one record
    holding the request, and the store holds that record alone. *)
Theorem create_on_empty_store (c : Booking) (l : list access) :
  exists r, createBooking c (mkWorld [] l)
            = (Accepted r,
               mkWorld [r] (l ++ [AFindMany; AFindMany; AFindMany; AFindMany; ACreate r]))
            /\ bk r = c.
Proof.
  exists (mkRow (max_id [] + 1) c); split; [|reflexivity].
  unfold createBooking, isBookingPossible, bind, ret, findMany, record_access, create; simpl.
  rewrite <- !app_assoc; reflexivity.
Qed.

(** X14: when the proposed checkout leaves the date range (an
    [extraNights] of [Infinity], or a finite count large enough), it is an
    Invalid Date and every comparison with it is false: [findMany] returns
    nothing, the conflict check passes whatever else is on the unit, and
    the extension is accepted and written. *)
Theorem extension_out_of_range_accepted (i : Z) (e : jsnum) (w : World) (b : BookingRow) :
  invalid_extra e = false ->
  find (fun x => id x =? i) (store w) = Some b ->
  addNights (checkOut b) e = None ->
  fst (extendBooking i e w) = Accepted (set_nights b (js_add (rowNights b) e))
  /\ store (snd (extendBooking i e w))
     = map (fun x => if id x =? id b then set_nights x (js_add (rowNights b) e) else x)
           (store w).
Proof.
  intros He Hf Hn; pose proof (extendBooking_run i e w) as H.
  rewrite He, Hf in H; cbv zeta in H; rewrite Hn in H.
  rewrite existsb_all_false in H; [exact H|].
  intros o _; destruct (rowCheckIn o); rewrite !andb_false_r; reflexivity.
Qed.

(** Witness of X14: extending GuestA's booking by [Infinity] nights is
    accepted although GuestB's booking of the same unit starts at its
    checkout. *)
Lemma extension_out_of_range_accepted_witness :
  fst (extendBooking 1 JPosInf
         (world0 [row 1 "GuestA" "1" today 5; row 2 "GuestB" "1" (today + 5) 3]))
  = Accepted (set_nights (row 1 "GuestA" "1" today 5) JPosInf).
Proof.
  apply (extension_out_of_range_accepted 1 JPosInf
           (world0 [row 1 "GuestA" "1" today 5; row 2 "GuestB" "1" (today + 5) 3])
           (row 1 "GuestA" "1" today 5)); vm_compute; reflexivity.
Defined.
